(** * thanhhoajs/swagger: the document explorer and the annotation surface

    A shallow embedding of [src/explorer/swagger.explorer.ts], of the
    operation, model and security decorators, and of [setupSwagger],
    together with the properties the specification states about them.

    JavaScript values are embedded as a small JSON-like type; objects are
    association lists in insertion order.  Calls that can raise a
    [TypeError] or recurse without bound return in the [Res] monad. *)

From Stdlib Require Import Ascii.
From stdpp Require Import base option list strings gmap pretty.

Open Scope string_scope.

(** ** JavaScript values *)

(** Numbers are restricted to integers (status codes, indices); NaN and
    fractions do not occur in the metadata handled here. *)
#[warnings="-register-all"]
Inductive value :=
| VUndefined
| VNull
| VBool (b : bool)
| VNum (n : Z)
| VStr (s : string)
| VArr (xs : list value)
| VObj (fields : list (string * value)).

(** An object literal: own enumerable string-keyed properties in insertion
    order.  (JavaScript enumerates index-like keys first; an association
    list stands for the object it denotes as a map.) *)
Abbreviation obj := (list (string * value)).

Definition truthy (v : value) : bool :=
  match v with
  | VUndefined | VNull => false
  | VBool b => b
  | VNum n => negb (Z.eqb n 0)
  | VStr s => negb (String.eqb s "")
  | VArr _ | VObj _ => true
  end.

(** [a || b] *)
Definition or_else (a b : value) : value := if truthy a then a else b.

Section AssocList.
Context {A : Type}.

Fixpoint obj_lookup (k : string) (o : list (string * A)) : option A :=
  match o with
  | [] => None
  | (k', v) :: o' => if String.eqb k k' then Some v else obj_lookup k o'
  end.

(** [o[k] = v]: an existing key keeps its position, a new key goes last. *)
Fixpoint obj_set (k : string) (v : A) (o : list (string * A)) : list (string * A) :=
  match o with
  | [] => [(k, v)]
  | (k', v') :: o' =>
      if String.eqb k k' then (k, v) :: o' else (k', v') :: obj_set k v o'
  end.

Definition keys (o : list (string * A)) : list string := o.*1.
End AssocList.

(** [v.k] for a [v] that is neither [null] nor [undefined]; the keys read
    by the explorer are never array indices or [length], so only objects
    answer. *)
Definition get (v : value) (k : string) : value :=
  match v with
  | VObj o => default VUndefined (obj_lookup k o)
  | _ => VUndefined
  end.

Fixpoint string_chars (s : string) : list value :=
  match s with
  | EmptyString => []
  | String c s' => VStr (String c EmptyString) :: string_chars s'
  end.

Definition indexed (xs : list value) : obj :=
  imap (fun i x => (pretty i, x)) xs.

(** An object has one binding per key: where a list repeats a key, the
    first binding is the one [obj_lookup] reads, and the only one
    enumerated. *)
Fixpoint bindings (o : obj) : obj :=
  match o with
  | [] => []
  | (k, v) :: o' => (k, v) :: filter (fun kv => negb (String.eqb kv.1 k)) (bindings o')
  end.

(** Own enumerable properties, as [Object.entries] and object spread see
    them. *)
Definition own_entries (v : value) : obj :=
  match v with
  | VObj o => bindings o
  | VArr xs => indexed xs
  | VStr s => indexed (string_chars s)
  | _ => []
  end.

(** [{ ...o, ...v }] *)
Definition spread (o : obj) (v : value) : obj :=
  foldl (fun acc kv => obj_set kv.1 kv.2 acc) o (own_entries v).

(** ** Results: a value, a thrown [TypeError], or unbounded recursion *)

Inductive Res (A : Type) :=
| Ok (a : A)
| TypeError
| OutOfFuel.
Arguments Ok {A} a.
Arguments TypeError {A}.
Arguments OutOfFuel {A}.

#[global] Instance Res_ret : MRet Res := fun _ a => Ok a.
#[global] Instance Res_bind : MBind Res := fun _ _ f m =>
  match m with
  | Ok a => f a
  | TypeError => TypeError
  | OutOfFuel => OutOfFuel
  end.

(** [[...v]]: only iterables spread into an array literal. *)
Definition iterate (v : value) : Res (list value) :=
  match v with
  | VArr xs => Ok xs
  | VStr s => Ok (string_chars s)
  | _ => TypeError
  end.

(** ** Strings *)

Definition slash : ascii := "/"%char.
Definition colon : ascii := ":"%char.

(** [s.replace(/^\/+/, "")] *)
Fixpoint strip_leading_slashes (s : string) : string :=
  match s with
  | String c s' => if Ascii.eqb c slash then strip_leading_slashes s' else s
  | EmptyString => EmptyString
  end.

(** [s.replace(/\/+$/, "")] *)
Fixpoint strip_trailing_slashes (s : string) : string :=
  match s with
  | EmptyString => EmptyString
  | String c s' =>
      match strip_trailing_slashes s' with
      | EmptyString => if Ascii.eqb c slash then EmptyString else String c EmptyString
      | r => String c r
      end
  end.

(** [s.split("/").pop()]: the text after the last slash. *)
Fixpoint last_segment_from (acc s : string) : string :=
  match s with
  | EmptyString => acc
  | String c s' =>
      if Ascii.eqb c slash then last_segment_from EmptyString s'
      else last_segment_from (acc +:+ String c EmptyString) s'
  end.
Definition last_segment (s : string) : string := last_segment_from EmptyString s.

Definition lower_char (c : ascii) : ascii :=
  let n := nat_of_ascii c in
  if (65 <=? n)%nat && (n <=? 90)%nat then ascii_of_nat (n + 32) else c.

(** [s.toLowerCase()] on ASCII text. *)
Fixpoint toLowerCase (s : string) : string :=
  match s with
  | EmptyString => EmptyString
  | String c s' => String (lower_char c) (toLowerCase s')
  end.

(** ** Path handling of [SwaggerExplorer] *)

Definition normalizePath (path : string) : string :=
  "/" +:+ strip_trailing_slashes (strip_leading_slashes path).

(** [routePath === "" ? "" : `/${routePath.replace(/^\/+/, "")}`] *)
Definition methodPath (routePath : string) : string :=
  if String.eqb routePath "" then "" else "/" +:+ strip_leading_slashes routePath.

Definition fullPath (basePath routePath : string) : string :=
  normalizePath (basePath +:+ methodPath routePath).

Definition starts_with_slash (s : string) : bool :=
  match s with String c _ => Ascii.eqb c slash | EmptyString => false end.

Fixpoint ends_with_slash (s : string) : bool :=
  match s with
  | EmptyString => false
  | String c EmptyString => Ascii.eqb c slash
  | String _ s' => ends_with_slash s'
  end.

(** Exactly one leading slash: a slash followed by something that does not
    begin with one. *)
Definition one_leading_slash (s : string) : bool :=
  match s with
  | String c s' => Ascii.eqb c slash && negb (starts_with_slash s')
  | EmptyString => false
  end.

Definition sample_paths : list string := [""; "/"; "a"; "/a/"; "a/b"].


(** *** [extractPathParameters]

    The regular expression [/:([^/]+)/g] keeps its position in
    [lastIndex]; here the position is the text that is still ahead. *)

(** What [[^/]+] consumes at the head of [s], and what follows it. *)
Fixpoint take_segment (s : string) : string * string :=
  match s with
  | EmptyString => (EmptyString, EmptyString)
  | String c s' =>
      if Ascii.eqb c slash then (EmptyString, s)
      else let '(name, rest) := take_segment s' in (String c name, rest)
  end.

(** [paramRegex.exec(path)]: the leftmost colon followed by at least one
    character other than a slash; yields [match[1]] and the text after
    the match. *)
Fixpoint regex_exec (s : string) : option (string * string) :=
  match s with
  | EmptyString => None
  | String c s' =>
      if Ascii.eqb c colon then
        match take_segment s' with
        | (EmptyString, _) => regex_exec s'
        | (name, rest) => Some (name, rest)
        end
      else regex_exec s'
  end.

Definition derived_parameter (name : string) : value :=
  VObj [("name", VStr name); ("in", VStr "path"); ("required", VBool true);
        ("schema", VObj [("type", VStr "string")])].

(** [while ((match = paramRegex.exec(path)) !== null) params.push(...)];
    every match consumes at least two characters, so the length of the
    path bounds the number of iterations. *)
Fixpoint extract_loop (fuel : nat) (s : string) : list value :=
  match fuel with
  | O => []
  | S fuel' =>
      match regex_exec s with
      | None => []
      | Some (name, rest) => derived_parameter name :: extract_loop fuel' rest
      end
  end.

Definition extractPathParameters (path : string) : list value :=
  extract_loop (String.length path) path.

(** ** The reflection store *)

Definition ClassId := nat.

(** A class as the explorer sees it: its [name] and the own property
    names of its prototype that are functions, the constructor left out. *)
Record Class := {
  class_id : ClassId;
  class_name : string;
  class_methods : list string;
}.

(** Metadata is attached to a constructor or to its prototype, with or
    without a member name.  Classes here have no superclass, so
    [Reflect.getMetadata] finds own metadata only. *)
Inductive Target :=
| Constructor (c : ClassId)
| Prototype (c : ClassId).

#[global] Instance Target_eq_dec : EqDecision Target.
Proof. solve_decision. Defined.

#[global] Instance Target_countable : Countable Target.
Proof.
  refine (inj_countable'
    (fun t => match t with Constructor c => inl c | Prototype c => inr c end)
    (fun s => match s with inl c => Constructor c | inr c => Prototype c end) _).
  by intros [].
Defined.

(** Everything stored under [SWAGGER_METADATA]. *)
Abbreviation SwaggerStore := (gmap (Target * option string) value).

(** What the framework records with [@Get(path)], [@Post(path)], ... under
    [ROUTE_METADATA_KEY]. *)
Record RouteMetadata := {
  route_path : string;
  route_method : string;
}.

(** The process-wide state that annotations write and the explorer reads:
    the four metadata keys of the reflection store and the model registry
    [global.__swagger_schemas] ([None] while no model has been
    registered).  A module without ["module"] metadata, or without
    controllers, has no entry in [reflect_module]. *)
Record Global := {
  reflect_swagger : SwaggerStore;
  reflect_controller : gmap ClassId string;
  reflect_route : gmap (ClassId * string) RouteMetadata;
  reflect_module : gmap ClassId (list Class);
  swagger_schemas : option (list (string * ClassId));
}.

(** [Reflect.getMetadata(SWAGGER_METADATA, target, propertyKey)] *)
Definition getMetadata (st : SwaggerStore) (t : Target) (member : option string) : value :=
  default VUndefined (st !! (t, member)).

(** [Reflect.getMetadata(SWAGGER_METADATA, ...) || {}] *)
Definition existing (st : SwaggerStore) (t : Target) (member : option string) : value :=
  or_else (getMetadata st t member) (VObj []).

(** ** Decorators *)

(** Where a decorator is applied: on a class ([target] is the constructor,
    no descriptor) or on a method ([target] is the prototype, with the
    method name and a descriptor). *)
Inductive Site :=
| OnClass (c : ClassId)
| OnMethod (c : ClassId) (m : string).

Definition site_key (site : Site) : Target * option string :=
  match site with
  | OnClass c => (Constructor c, None)
  | OnMethod c m => (Prototype c, Some m)
  end.

Definition string_array (l : list string) : value := VArr (VStr <$> l).

Definition ApiOperation (metadata : value) (c : ClassId) (m : string)
    (st : SwaggerStore) : SwaggerStore :=
  let existingMetadata := existing st (Prototype c) (Some m) in
  <[(Prototype c, Some m) :=
      VObj (obj_set "operation" metadata (spread [] existingMetadata))]> st.

Definition ApiTags (tags : list string) (site : Site) (st : SwaggerStore) : SwaggerStore :=
  match site with
  | OnMethod c m =>
      let existingMetadata := existing st (Prototype c) (Some m) in
      <[(Prototype c, Some m) :=
          VObj (obj_set "tags" (string_array tags) (spread [] existingMetadata))]> st
  | OnClass c =>
      let existingMetadata := existing st (Constructor c) None in
      <[(Constructor c, None) :=
          VObj (obj_set "tags" (string_array tags) (spread [] existingMetadata))]> st
  end.

(** [parameters.push(p)]: only arrays have [push].  The array pushed onto
    is the one of the record being replaced; the decorators embedded here
    never leave one array under two keys, so the store holds values. *)
Definition push (parameters p : value) : Res value :=
  match parameters with
  | VArr xs => Ok (VArr (xs ++ [p]))
  | _ => TypeError
  end.

Definition add_parameter (location : string) (param : value) (c : ClassId) (m : string)
    (st : SwaggerStore) : Res SwaggerStore :=
  let existingMetadata := existing st (Prototype c) (Some m) in
  parameters ← push (or_else (get existingMetadata "parameters") (VArr []))
                    (VObj (obj_set "in" (VStr location) (spread [] param)));
  Ok (<[(Prototype c, Some m) :=
          VObj (obj_set "parameters" parameters (spread [] existingMetadata))]> st).

Definition ApiParam := add_parameter "path".
Definition ApiQuery := add_parameter "query".

Definition ApiSecurity (name : string) (scopes : list string) (site : Site)
    (st : SwaggerStore) : SwaggerStore :=
  let security := VArr [VObj [(name, string_array scopes)]] in
  match site with
  | OnMethod c m =>
      let existingMetadata := existing st (Prototype c) (Some m) in
      <[(Prototype c, Some m) :=
          VObj (obj_set "security" security (spread [] existingMetadata))]> st
  | OnClass c =>
      let existingMetadata := existing st (Constructor c) None in
      <[(Constructor c, None) :=
          VObj (obj_set "security" security (spread [] existingMetadata))]> st
  end.

(** The scheme decorators take [target] alone and define the metadata on
    it without a member name: on the constructor for a class, on the
    prototype for a method. *)
Definition site_target (site : Site) : Target :=
  match site with
  | OnClass c => Constructor c
  | OnMethod c _ => Prototype c
  end.

Definition scheme_metadata (name : string) (scheme : obj) : value :=
  VObj [("components", VObj [("securitySchemes", VObj [(name, VObj scheme)])]);
        ("security", VArr [VObj [(name, VArr [])]])].

Definition ApiBasicAuth (options : value) (site : Site) (st : SwaggerStore) : SwaggerStore :=
  <[(site_target site, None) :=
      scheme_metadata "basicAuth"
        (spread [("type", VStr "http"); ("scheme", VStr "basic")] options)]> st.

Definition ApiBearerAuth (options : value) (site : Site) (st : SwaggerStore) : SwaggerStore :=
  <[(site_target site, None) :=
      scheme_metadata "bearerAuth"
        (spread [("type", VStr "http"); ("scheme", VStr "bearer");
                 ("bearerFormat", VStr "JWT")] options)]> st.

Definition ApiOAuth2 (flows : value) (site : Site) (st : SwaggerStore) : SwaggerStore :=
  <[(site_target site, None) :=
      scheme_metadata "oauth2" [("type", VStr "oauth2"); ("flows", flows)]]> st.

(** [ApiModel] writes the class metadata on the constructor and on the
    prototype and puts the class into the registry under its name. *)
Definition registry_set (name : string) (c : ClassId)
    (reg : option (list (string * ClassId))) : option (list (string * ClassId)) :=
  Some (obj_set name c (default [] reg)).

Definition ApiModel (metadata : value) (target : Class) (G : Global) : Global :=
  let st := reflect_swagger G in
  let existingMetadata := existing st (Constructor (class_id target)) None in
  let properties := or_else (get existingMetadata "properties") (VObj []) in
  let updatedMetadata :=
    VObj (obj_set "properties" properties
            (obj_set "type" (VStr "object") (spread [] metadata))) in
  {| reflect_swagger :=
       <[(Prototype (class_id target), None) := updatedMetadata]>
         (<[(Constructor (class_id target), None) := updatedMetadata]> st);
     reflect_controller := reflect_controller G;
     reflect_route := reflect_route G;
     reflect_module := reflect_module G;
     swagger_schemas := registry_set (class_name target) (class_id target) (swagger_schemas G) |}.

(** ** [SwaggerExplorer] *)

(** The two accumulators of an explorer instance: [paths] maps a full
    path to its path item (method key to operation), [schemas] maps a
    model name to its schema object.  Both hold objects only, so a key is
    truthy exactly when it is present (full paths start with a slash, and
    model names are taken not to be members of [Object.prototype]). *)
Record Explorer := {
  paths : list (string * obj);
  schemas : list (string * obj);
}.

Definition with_schemas (ex : Explorer) (s : list (string * obj)) : Explorer :=
  {| paths := paths ex; schemas := s |}.
Definition with_paths (ex : Explorer) (p : list (string * obj)) : Explorer :=
  {| paths := p; schemas := schemas ex |}.

(** [for (const x of l) { ... }] over a body that may throw. *)
Fixpoint for_each {A S : Type} (body : A -> S -> Res S) (l : list A) (s : S) : Res S :=
  match l with
  | [] => Ok s
  | x :: l' => s' ← body x s; for_each body l' s'
  end.

Section Explore.
Variable G : Global.

Definition class_metadata (c : ClassId) : value :=
  existing (reflect_swagger G) (Constructor c) None.

(** [schemaRegistry.has(name)] and [schemaRegistry.get(name)] *)
Definition registry_get (name : string) : option ClassId :=
  reg ← swagger_schemas G; obj_lookup name reg.

(** [{ type: "object", ...metadata, properties }] *)
Definition model_schema (metadata : value) (properties : obj) : obj :=
  obj_set "properties" (VObj properties) (spread [("type", VStr "object")] metadata).

(** One iteration of the loop of [transformProperties]; reading
    [prop.items] throws on [null] and [undefined]. *)
Definition transform_property
    (resolve : value -> Explorer -> Res (value * Explorer))
    (entry : string * value) (acc : obj * Explorer) : Res (obj * Explorer) :=
  let '(key, prop) := entry in
  let '(transformed, ex) := acc in
  match prop with
  | VUndefined | VNull => TypeError
  | _ =>
      let items := get prop "items" in
      '(extra, ex') ←
        (if truthy items
         then '(r, ex') ← resolve items ex; Ok (VObj [("items", r)], ex')
         else Ok (items, ex));
      Ok (obj_set key (VObj (spread (spread [] prop) extra)) transformed, ex')
  end.

Definition transformProperties_with
    (resolve : value -> Explorer -> Res (value * Explorer))
    (properties : value) (ex : Explorer) : Res (obj * Explorer) :=
  for_each (transform_property resolve) (own_entries properties) ([], ex).

(** [resolveReference]; the fuel bounds the depth of the mutual
    recursion with [transformProperties].  The schema is stored only
    after its properties have been transformed. *)
Fixpoint resolveReference (fuel : nat) (ref : value) (ex : Explorer)
    : Res (value * Explorer) :=
  match fuel with
  | O => OutOfFuel
  | S fuel' =>
      if truthy (get ref "$ref") then
        match get ref "$ref" with
        | VStr s =>
            let refName := last_segment s in
            match obj_lookup refName (schemas ex) with
            | Some _ => Ok (ref, ex)
            | None =>
                match registry_get refName with
                | Some target =>
                    let metadata := class_metadata target in
                    '(properties, ex') ←
                      transformProperties_with (resolveReference fuel')
                        (or_else (get metadata "properties") (VObj [])) ex;
                    Ok (ref, with_schemas ex'
                               (obj_set refName (model_schema metadata properties)
                                  (schemas ex')))
                | None => Ok (ref, ex)
                end
            end
        | _ => TypeError
        end
      else Ok (ref, ex)
  end.

Definition transformProperties (fuel : nat) :=
  transformProperties_with (resolveReference fuel).

Definition collect_model (fuel : nat) (entry : string * ClassId) (ex : Explorer)
    : Res Explorer :=
  let '(name, target) := entry in
  let metadata := class_metadata target in
  if truthy (get metadata "properties") then
    '(properties, ex') ← transformProperties fuel (get metadata "properties") ex;
    Ok (with_schemas ex' (obj_set name (model_schema metadata properties) (schemas ex')))
  else Ok ex.

Definition collectGlobalSchemas (fuel : nat) (ex : Explorer) : Res Explorer :=
  match swagger_schemas G with
  | Some schemaRegistry => for_each (collect_model fuel) schemaRegistry ex
  | None => Ok ex
  end.

Definition getControllerTags (controller : Class) : value :=
  or_else (get (class_metadata (class_id controller)) "tags") (VArr []).

Definition default_responses : value :=
  VObj [("200", VObj [("description", VStr "Success")])].

(** The operation literal of [exploreController]:
    [{ tags, ...swaggerMetadata.operation, parameters, requestBody, responses }]. *)
Definition operation_literal (tags : list value) (operation : value)
    (parameters : list value) (requestBody responses : value) : value :=
  VObj (obj_set "responses" responses
       (obj_set "requestBody" requestBody
       (obj_set "parameters" (VArr parameters)
       (spread [("tags", VArr tags)] operation)))).

Definition build_operation (controllerTags swaggerMetadata : value) (full : string)
    : Res value :=
  ctags ← iterate (or_else controllerTags (VArr []));
  mtags ← iterate (or_else (get swaggerMetadata "tags") (VArr []));
  declared ← iterate (or_else (get swaggerMetadata "parameters") (VArr []));
  Ok (operation_literal (ctags ++ mtags) (get swaggerMetadata "operation")
        (extractPathParameters full ++ declared)
        (get swaggerMetadata "requestBody")
        (or_else (get swaggerMetadata "responses") default_responses)).

(** [this.paths[fullPath][methodKey] = operation], after
    [if (!this.paths[fullPath]) this.paths[fullPath] = {}]. *)
Definition set_operation (full methodKey : string) (operation : value)
    (p : list (string * obj)) : list (string * obj) :=
  obj_set full (obj_set methodKey operation (default [] (obj_lookup full p))) p.

(** [Reflect.getMetadata(SWAGGER_METADATA, prototype, method) || {}] *)
Definition endpoint_metadata (controller : Class) (method : string) : value :=
  existing (reflect_swagger G) (Prototype (class_id controller)) (Some method).

Definition explore_method (controller : Class) (basePath : string)
    (controllerTags : value) (method : string) (ex : Explorer) : Res Explorer :=
  match reflect_route G !! (class_id controller, method) with
  | None => Ok ex
  | Some routeMetadata =>
      let swaggerMetadata := endpoint_metadata controller method in
      let full := fullPath basePath (route_path routeMetadata) in
      let methodKey := toLowerCase (route_method routeMetadata) in
      operation ← build_operation controllerTags swaggerMetadata full;
      Ok (with_paths ex (set_operation full methodKey operation (paths ex)))
  end.

Definition exploreController (controller : Class) (ex : Explorer) : Res Explorer :=
  let basePath := default "" (reflect_controller G !! class_id controller) in
  let controllerTags := getControllerTags controller in
  for_each (explore_method controller basePath controllerTags)
           (class_methods controller) ex.

Definition explore_module (module : Class) (ex : Explorer) : Res Explorer :=
  for_each exploreController (default [] (reflect_module G !! class_id module)) ex.

(** What [explore] returns: [{ paths, components: { schemas } }]. *)
Definition explored (ex : Explorer) : value :=
  VObj [("paths", VObj (prod_map id VObj <$> paths ex));
        ("components", VObj [("schemas", VObj (prod_map id VObj <$> schemas ex))])].

Definition explore (fuel : nat) (modules : list Class) (ex : Explorer)
    : Res (value * Explorer) :=
  let ex := with_paths ex [] in
  let ex := with_schemas ex [] in
  ex ← collectGlobalSchemas fuel ex;
  ex ← for_each explore_module modules ex;
  Ok (explored ex, ex).
End Explore.

(** ** [SwaggerService] and [setupSwagger] *)

Inductive Failure :=
| StructuralValidationError
| ConfigurationError
| JsTypeError.

(** A call on a stateful object: it returns with the new state, or throws
    and leaves the state it had reached. *)
Inductive Outcome (S : Type) :=
| Returned (s : S)
| Threw (f : Failure) (s : S).
Arguments Returned {S} s.
Arguments Threw {S} f s.

Record SwaggerConfig := {
  config_path : option string;
  config_document : value;
}.

Record SwaggerService := {
  service_config : option SwaggerConfig;
  service_document : option value;
  service_explored : Explorer;
}.

(** The application: the modules registered on it and its GET routes. *)
Record App := {
  app_modules : list string;
  app_routes : list string;
}.

Definition absent (v : value) : bool :=
  match v with VUndefined => true | _ => false end.

(** Modelled from the spec: [validate] of the Document Assembler, whose
    source ([src/module/swagger.service.ts]) is not available.  "Fails
    when [paths], [info.title], or [info.version] is absent." *)
Definition validate (document : value) : bool :=
  negb (absent (get document "paths"))
  && negb (absent (get (get document "info") "title"))
  && negb (absent (get (get document "info") "version")).

(** Modelled from the spec: [SwaggerService.setDocument], whose source is
    not available.  The structural validation error is "raised by
    assemble/validate and must prevent the document from ever being
    served": the document is stored only when it validates. *)
Definition setDocument (document : value) (svc : SwaggerService) : Outcome SwaggerService :=
  if validate document
  then Returned {| service_config := service_config svc;
                   service_document := Some document;
                   service_explored := service_explored svc |}
  else Threw StructuralValidationError svc.

(** Modelled from the spec: [getDocument], which "fails before
    configuration has run" and otherwise hands out the stored document. *)
Definition getDocument (svc : SwaggerService) : option value := service_document svc.

Section Setup.
(** The remaining methods of the service are taken as they come. *)
Variable setConfig : SwaggerConfig -> SwaggerService -> Outcome SwaggerService.
Variable generateDocument : list Class -> SwaggerService -> Outcome SwaggerService.
Variable getPaths : SwaggerService -> value.
Variable getComponents : SwaggerService -> value.

(** [{ ...config.document, paths, components: { ...config.document.components, ...getComponents() } }] *)
Definition completeDocument (config : SwaggerConfig) (svc : SwaggerService) : Res value :=
  match config_document config with
  | VUndefined | VNull => TypeError
  | document =>
      Ok (VObj
            (obj_set "components"
               (VObj (spread (spread [] (get document "components")) (getComponents svc)))
            (obj_set "paths" (getPaths svc) (spread [] document))))
  end.

Definition docs_path (config : SwaggerConfig) : string :=
  match config_path config with
  | Some p => if String.eqb p "" then "docs" else p
  | None => "docs"
  end.

Definition setupSwagger (app : App) (config : SwaggerConfig) (modules : list Class)
    (svc : SwaggerService) : Outcome (App * SwaggerService) :=
  let app := {| app_modules := app_modules app ++ ["SwaggerModule"];
                app_routes := app_routes app |} in
  match setConfig config svc with
  | Threw f svc => Threw f (app, svc)
  | Returned svc =>
      match generateDocument modules svc with
      | Threw f svc => Threw f (app, svc)
      | Returned svc =>
          match completeDocument config svc with
          | Ok document =>
              match setDocument document svc with
              | Threw f svc => Threw f (app, svc)
              | Returned svc =>
                  let path := docs_path config in
                  Returned ({| app_modules := app_modules app;
                               app_routes := app_routes app
                                 ++ [path +:+ "/swagger.json"; path] |}, svc)
              end
          | _ => Threw JsTypeError (app, svc)
          end
      end
  end.
End Setup.

(** ** Vocabulary of the statements *)

(** A list-valued field as the annotations leave it: an array, or nothing. *)
Definition array_or_absent (v : value) : bool :=
  match v with
  | VArr _ => true
  | _ => negb (truthy v)
  end.

Definition elements (v : value) : list value :=
  match v with VArr xs => xs | _ => [] end.

(** Operation metadata that brings no [tags] key: none given, or an
    object without that key. *)
Definition without_tags (operation : value) : bool :=
  match operation with
  | VUndefined => true
  | VObj o => match obj_lookup "tags" o with Some _ => false | None => true end
  | _ => false
  end.

(** [paths[full][methodKey]] *)
Definition operation_at (p : list (string * obj)) (full methodKey : string) : option value :=
  item ← obj_lookup full p; obj_lookup methodKey item.

(** The template variables of a path, read segment by segment: in each
    segment, the text after its first colon, when there is any. *)
Fixpoint split_slash (s : string) : list string :=
  match s with
  | EmptyString => [EmptyString]
  | String c s' =>
      if Ascii.eqb c slash then EmptyString :: split_slash s'
      else match split_slash s' with
           | segment :: rest => String c segment :: rest
           | [] => [String c EmptyString]
           end
  end.

Fixpoint variable_of (segment : string) : option string :=
  match segment with
  | EmptyString => None
  | String c s' =>
      if Ascii.eqb c colon
      then match s' with EmptyString => None | _ => Some s' end
      else variable_of s'
  end.

Definition template_variables (path : string) : list string :=
  omap variable_of (split_slash path).

(** The registry as a list of entries, empty while it does not exist. *)
Definition registered (G : Global) : list (string * ClassId) :=
  default [] (swagger_schemas G).

(** [metadata.properties || {}] of a class. *)
Definition model_properties (G : Global) (c : ClassId) : value :=
  or_else (get (class_metadata G c) "properties") (VObj []).

(** The class metadata has a [properties] field that passes
    [if (metadata.properties)]; an empty object does. *)
Definition declares_properties (G : Global) (c : ClassId) : bool :=
  truthy (get (class_metadata G c) "properties").

(** A property of class [c] has [items] whose [$ref] ends in [name]. *)
Definition refers_to (G : Global) (c : ClassId) (name : string) : Prop :=
  ∃ key prop s,
    (key, prop) ∈ own_entries (model_properties G c)
    ∧ get (get prop "items") "$ref" = VStr s
    ∧ s ≠ ""
    ∧ last_segment s = name.

(** Metadata as [ApiProperty] writes it: every property is a schema
    object, and a [$ref] of its [items] is a string. *)
Definition well_shaped (G : Global) : Prop :=
  ∀ name c key prop,
    (name, c) ∈ registered G →
    (key, prop) ∈ own_entries (model_properties G c) →
    prop ≠ VUndefined ∧ prop ≠ VNull
    ∧ (truthy (get (get prop "items") "$ref") = true →
       ∃ s, get (get prop "items") "$ref" = VStr s).

(** No chain of [items] references among registered models returns to
    its start: references lead to models of smaller rank. *)
Definition acyclic (G : Global) (rank : ClassId → nat) : Prop :=
  ∀ name c name' c',
    (name, c) ∈ registered G →
    refers_to G c name' →
    registry_get G name' = Some c' →
    (rank c' < rank c)%nat.

(** Why a name may be in the schema map: it is registered, and either its
    class has a [properties] field or a registered class refers to it. *)
Definition materializable (G : Global) (name : string) : Prop :=
  ∃ c, (name, c) ∈ registered G
       ∧ (declares_properties G c = true
          ∨ ∃ name' c', (name', c') ∈ registered G ∧ refers_to G c' name).

(** The schema map only grows, and only by materializable names. *)
Definition grows (G : Global) (ex ex' : Explorer) : Prop :=
  (∀ n, n ∈ keys (schemas ex) → n ∈ keys (schemas ex'))
  ∧ (∀ n, n ∈ keys (schemas ex') → n ∈ keys (schemas ex) ∨ materializable G n).

(** Running [explore] twice on the same instance. *)
Definition explore_twice (G : Global) (fuel : nat) (modules : list Class) (ex : Explorer)
    : Res (value * value) :=
  '(first, ex1) ← explore G fuel modules ex;
  '(second, _) ← explore G fuel modules ex1;
  Ok (first, second).

(** ** Sample declarations *)

Module Sample.
Definition UserController : Class :=
  {| class_id := 1; class_name := "UserController";
     class_methods := ["getUsers"; "getUser"] |}.
Definition UserModule : Class :=
  {| class_id := 2; class_name := "UserModule"; class_methods := [] |}.

Definition routes : gmap (ClassId * string) RouteMetadata :=
  <[(1, "getUser") := {| route_path := ":id"; route_method := "GET" |}]>
    (<[(1, "getUsers") := {| route_path := ""; route_method := "GET" |}]> ∅).

Definition with_store (st : SwaggerStore) : Global :=
  {| reflect_swagger := st;
     reflect_controller := {[ 1 := "users" ]};
     reflect_route := routes;
     reflect_module := {[ 2 := [UserController] ]};
     swagger_schemas := None |}.

Definition tagged : SwaggerStore :=
  ApiTags ["Users"] (OnMethod 1 "getUser") (ApiTags ["Admin"] (OnClass 1) ∅).

Definition id_param : value :=
  VObj [("name", VStr "id"); ("description", VStr "User id")].

Definition fresh : Explorer := {| paths := []; schemas := [] |}.

(** [@ApiParam({ name: "id", description: "User id" })] on [getUser]. *)
Definition declared : SwaggerStore :=
  match ApiParam id_param 1 "getUser" tagged with
  | Ok st => st
  | _ => tagged
  end.

(** [@ApiOperation({ summary: "Get user by id", tags: ["Accounts"] })] on
    [getUser]. *)
Definition overridden : SwaggerStore :=
  ApiOperation (VObj [("summary", VStr "Get user by id");
                      ("tags", VArr [VStr "Accounts"])]) 1 "getUser" tagged.

Definition getUser_route : RouteMetadata :=
  {| route_path := ":id"; route_method := "GET" |}.

Definition no_controllers (st : SwaggerStore)
    (reg : option (list (string * ClassId))) : Global :=
  {| reflect_swagger := st; reflect_controller := ∅; reflect_route := ∅;
     reflect_module := ∅; swagger_schemas := reg |}.

Definition ref_to (name : string) : value :=
  VObj [("$ref", VStr ("#/components/schemas/" +:+ name))].
Definition array_of (items : value) : value :=
  VObj [("type", VStr "array"); ("items", items)].
Definition model (properties : obj) : value :=
  VObj [("type", VStr "object"); ("properties", VObj properties)].

(** [@ApiModel() class Tree { @ApiProperty({ items: { $ref: ".../Tree" } })
    children: Tree[] }] leaves this metadata on the constructor. *)
Definition Tree : Class := {| class_id := 10; class_name := "Tree"; class_methods := [] |}.
Definition tree_store : SwaggerStore :=
  {[ (Constructor 10, None) := model [("children", array_of (ref_to "Tree"))] ]}.
Definition tree_global : Global := no_controllers tree_store (Some [("Tree", 10)]).

(** Two models whose array properties refer to each other. *)
Definition cycle_store : SwaggerStore :=
  <[(Constructor 21, None) := model [("authors", array_of (ref_to "Author"))]]>
    {[ (Constructor 20, None) := model [("books", array_of (ref_to "Book"))] ]}.
Definition cycle_global : Global :=
  no_controllers cycle_store (Some [("Author", 20); ("Book", 21)]).

(** [@ApiModel() class Empty {}]: a model without any property. *)
Definition Empty : Class := {| class_id := 11; class_name := "Empty"; class_methods := [] |}.
Definition empty_global : Global := ApiModel (VObj []) Empty (no_controllers ∅ None).

(** [Post] lists [User]s; [Bare] was registered by a property of its
    type and carries no metadata of its own. *)
Definition blog_store : SwaggerStore :=
  <[(Constructor 13, None) := model [("title", VObj [("type", VStr "string")]);
                                      ("authors", array_of (ref_to "User"));
                                      ("drafts", array_of (ref_to "Bare"))]]>
    {[ (Constructor 12, None) := model [("id", VObj [("type", VStr "string")]);
                                         ("email", VObj [("type", VStr "string")])] ]}.
Definition blog_global : Global :=
  no_controllers blog_store (Some [("Post", 13); ("User", 12); ("Bare", 14)]).
Definition blog_rank (c : ClassId) : nat := if Nat.eqb c 13 then 1 else 0.
End Sample.



(** ** Further annotations and type inference *)

(** [ApiBody] as the operation decorators without type inference have it:
    [{ ...existingMetadata, requestBody: metadata }]. *)
Definition ApiBody (metadata : value) (c : ClassId) (m : string)
    (st : SwaggerStore) : SwaggerStore :=
  let existingMetadata := existing st (Prototype c) (Some m) in
  <[(Prototype c, Some m) :=
      VObj (obj_set "requestBody" metadata (spread [] existingMetadata))]> st.

(** The run-time type objects that the decorators inspect: nothing
    ([undefined]), a built-in constructor, an array literal of types such
    as [[User]], or any other constructor with a prototype (a class;
    [Object] itself is the class named ["Object"]). *)
#[warnings="-register-all"]
Inductive JsType :=
| TNone
| TString
| TNumber
| TBoolean
| TDate
| TArray
| TList (items : list JsType)
| TClass (c : Class).

(** [type.name] of a constructor. *)
Definition type_name (t : JsType) : string :=
  match t with
  | TString => "String"
  | TNumber => "Number"
  | TBoolean => "Boolean"
  | TDate => "Date"
  | TArray => "Array"
  | TClass c => class_name c
  | TNone | TList _ => ""
  end.

(** The names that every object literal inherits from [Object.prototype].
    [typeMap] is an object literal, so [typeMap[name]] finds the inherited
    member under such a name, which is truthy and no schema. *)
Definition object_prototype_members : list string :=
  ["constructor"; "hasOwnProperty"; "isPrototypeOf"; "propertyIsEnumerable";
   "toLocaleString"; "toString"; "valueOf"; "__proto__";
   "__defineGetter__"; "__defineSetter__"; "__lookupGetter__"; "__lookupSetter__"].

Definition inherited_member (name : string) : bool :=
  existsb (String.eqb name) object_prototype_members.

(** The own entries of [typeMap] in [getSchemaFromType].  The statements
    about [getSchemaFromType] leave out the classes whose name is an
    [inherited_member]. *)
Definition typeMap (name : string) : option value :=
  if String.eqb name "String" then Some (VObj [("type", VStr "string")])
  else if String.eqb name "Number" then Some (VObj [("type", VStr "number")])
  else if String.eqb name "Boolean" then Some (VObj [("type", VStr "boolean")])
  else if String.eqb name "Date"
       then Some (VObj [("type", VStr "string"); ("format", VStr "date-time")])
  else if String.eqb name "Object" then Some (VObj [("type", VStr "object")])
  else None.

Definition reference_to (name : string) : value :=
  VObj [("$ref", VStr ("#/components/schemas/" +:+ name))].

(** [getSchemaFromType] of the operation decorators with type inference.
    For the constructor [Array], [type.length] is the arity 1 and
    [type[0]] is [undefined]; for an empty array literal the item type
    is [Object]. *)
Fixpoint getSchemaFromType (t : JsType) : value :=
  match t with
  | TNone => VObj []
  | TArray => VObj [("type", VStr "array"); ("items", VObj [])]
  | TList [] => VObj [("type", VStr "array"); ("items", VObj [("type", VStr "object")])]
  | TList (itemType :: _) =>
      VObj [("type", VStr "array"); ("items", getSchemaFromType itemType)]
  | _ =>
      match typeMap (type_name t) with
      | Some schema => schema
      | None => reference_to (type_name t)
      end
  end.

(** [if (!registry.has(typeName)) registry.set(typeName, type)], creating
    the registry when it does not exist. *)
Definition registry_add (name : string) (c : ClassId)
    (reg : option (list (string * ClassId))) : option (list (string * ClassId)) :=
  match obj_lookup name (default [] reg) with
  | Some _ => Some (default [] reg)
  | None => Some (default [] reg ++ [(name, c)])%list
  end.

(** [getSchemaForType] of the model decorators: the schema of a property
    type, and the registry after the call. *)
Definition getSchemaForType (t : JsType) (reg : option (list (string * ClassId)))
    : value * option (list (string * ClassId)) :=
  match t with
  | TNone => (VObj [], reg)
  | TString => (VObj [("type", VStr "string")], reg)
  | TNumber => (VObj [("type", VStr "number")], reg)
  | TBoolean => (VObj [("type", VStr "boolean")], reg)
  | TDate => (VObj [("type", VStr "string"); ("format", VStr "date-time")], reg)
  | TArray => (VObj [("type", VStr "array"); ("items", VObj [])], reg)
  | TClass c => (reference_to (class_name c), registry_add (class_name c) (class_id c) reg)
  | TList _ => (VObj [], reg)
  end.

(** ** Vocabulary of the further statements *)

(** A constructor on which both inference functions can be compared: not
    an array literal, and not a class that bears the name of an entry of
    [typeMap], own or inherited. *)
Definition plain_constructor (t : JsType) : bool :=
  match t with
  | TList _ => false
  | TClass c =>
      if inherited_member (class_name c) then false
      else match typeMap (class_name c) with Some _ => false | None => true end
  | _ => true
  end.

(** The metadata under a key is a record, as every decorator leaves it,
    or there is none. *)
Definition record_at (st : SwaggerStore) (t : Target) (member : option string) : bool :=
  match st !! (t, member) with
  | None | Some (VObj _) => true
  | Some _ => false
  end.

(** The declarations [G] with [st] as what is stored under
    [SWAGGER_METADATA]. *)
Definition with_swagger (G : Global) (st : SwaggerStore) : Global :=
  {| reflect_swagger := st;
     reflect_controller := reflect_controller G;
     reflect_route := reflect_route G;
     reflect_module := reflect_module G;
     swagger_schemas := swagger_schemas G |}.

Fixpoint has_slash (s : string) : bool :=
  match s with
  | EmptyString => false
  | String c s' => Ascii.eqb c slash || has_slash s'
  end.

Fixpoint has_colon (s : string) : bool :=
  match s with
  | EmptyString => false
  | String c s' => Ascii.eqb c colon || has_colon s'
  end.

(** [segments.join("/")] *)
Fixpoint join_slash (segments : list string) : string :=
  match segments with
  | [] => EmptyString
  | [segment] => segment
  | segment :: rest => segment +:+ "/" +:+ join_slash rest
  end.

(** Every key of the paths map is a normalized path, every method key is
    in lower case, and every operation has what the document format
    requires of it. *)
Definition normalized (path : string) : Prop :=
  one_leading_slash path = true ∧ (ends_with_slash path = true → path = "/").

Definition complete_operation (operation : value) : Prop :=
  truthy (get operation "responses") = true
  ∧ ∃ parameters, get operation "parameters" = VArr parameters.

Definition well_formed_paths (p : list (string * obj)) : Prop :=
  ∀ path item methodKey operation,
    (path, item) ∈ p →
    (methodKey, operation) ∈ item →
    normalized path ∧ toLowerCase methodKey = methodKey ∧ complete_operation operation.

(** From [ex] to [ex'] the paths are the same, every schema of [ex] is
    still there unchanged, and the names that are new are registered. *)
Definition extends (G : Global) (ex ex' : Explorer) : Prop :=
  paths ex' = paths ex
  ∧ (∀ name schema,
       obj_lookup name (schemas ex) = Some schema →
       obj_lookup name (schemas ex') = Some schema)
  ∧ (∀ name, name ∈ keys (schemas ex') →
             name ∈ keys (schemas ex) ∨ is_Some (registry_get G name)).

(** What [transformProperties] makes of one property when the resolver
    hands its argument back: [{ ...prop, ...(prop.items && { items }) }]. *)
Definition copied (prop : value) : value :=
  VObj (spread (spread [] prop)
          (if truthy (get prop "items") then VObj [("items", get prop "items")]
           else get prop "items")).

(** Every annotated endpoint of the declarations has arrays, or nothing,
    for its tags and parameters, as [ApiTags], [ApiParam] and [ApiQuery]
    leave them. *)
Definition well_typed_endpoints (G : Global) : Prop :=
  ∀ c,
    array_or_absent (get (class_metadata G c) "tags") = true
    ∧ ∀ m, array_or_absent (get (existing (reflect_swagger G) (Prototype c) (Some m)) "tags")
           = true
           ∧ array_or_absent
               (get (existing (reflect_swagger G) (Prototype c) (Some m)) "parameters")
             = true.

(** A store as the annotations keep it: under every key a record or
    nothing, with arrays or nothing for tags and parameters. *)
Definition well_kept (st : SwaggerStore) : Prop :=
  ∀ t member,
    record_at st t member = true
    ∧ array_or_absent (get (getMetadata st t member) "tags") = true
    ∧ array_or_absent (get (getMetadata st t member) "parameters") = true.

(** ** Further sample declarations *)

Module Demo.
(** Two methods of one controller routed to the same path and method. *)
Definition ClashController : Class :=
  {| class_id := 30; class_name := "ClashController";
     class_methods := ["first"; "second"] |}.
Definition ClashModule : Class :=
  {| class_id := 31; class_name := "ClashModule"; class_methods := [] |}.

Definition clash_store : SwaggerStore :=
  ApiOperation (VObj [("summary", VStr "second")]) 30 "second"
    (ApiOperation (VObj [("summary", VStr "first")]) 30 "first" ∅).

Definition clash_global : Global :=
  {| reflect_swagger := clash_store;
     reflect_controller := {[ 30 := "items/" ]};
     reflect_route :=
       <[(30, "second") := {| route_path := "/list"; route_method := "get" |}]>
         {[ (30, "first") := {| route_path := "list"; route_method := "GET" |} ]};
     reflect_module := {[ 31 := [ClashController] ]};
     swagger_schemas := None |}.

Definition User : Class := {| class_id := 12; class_name := "User"; class_methods := [] |}.
End Demo.

(** * Properties *)

(** ** Association lists *)

Section AssocListFacts.
Context {A : Type}.
Implicit Types (o : list (string * A)) (k : string).

Lemma obj_lookup_set k k' (v : A) o :
  obj_lookup k (obj_set k' v o) = if String.eqb k k' then Some v else obj_lookup k o.
Proof.
  induction o as [|[k0 v0] o IH]; simpl.
  - reflexivity.
  - destruct (String.eqb k' k0) eqn:E'; simpl.
    + apply String.eqb_eq in E' as <-. by destruct (String.eqb k k').
    + destruct (String.eqb k k0) eqn:E0.
      * apply String.eqb_eq in E0 as ->.
        by rewrite String.eqb_sym, E'.
      * exact IH.
Qed.

Lemma obj_lookup_set_eq k (v : A) o : obj_lookup k (obj_set k v o) = Some v.
Proof. by rewrite obj_lookup_set, String.eqb_refl. Qed.

Lemma obj_lookup_set_ne k k' (v : A) o :
  k ≠ k' → obj_lookup k (obj_set k' v o) = obj_lookup k o.
Proof.
  intros Hne. rewrite obj_lookup_set.
  by destruct (String.eqb_spec k k').
Qed.

Lemma obj_lookup_elem_of k (v : A) o : obj_lookup k o = Some v → (k, v) ∈ o.
Proof.
  induction o as [|[k0 v0] o IH]; simpl; [done|].
  destruct (String.eqb_spec k k0) as [->|_].
  - intros [= ->]. left.
  - intros H. right. by apply IH.
Qed.

Lemma obj_lookup_keys k o : k ∈ keys o ↔ is_Some (obj_lookup k o).
Proof.
  unfold keys. induction o as [|[k0 v0] o IH]; simpl.
  - split; [by intros ?%elem_of_nil | by intros [? [=]]].
  - rewrite elem_of_cons. destruct (String.eqb_spec k k0) as [->|Hne].
    + split; eauto.
    + rewrite IH. split; [intros [?|?]; done | by right].
Qed.

Lemma keys_obj_set k k' (v : A) o : k ∈ keys (obj_set k' v o) ↔ k = k' ∨ k ∈ keys o.
Proof.
  rewrite !obj_lookup_keys, obj_lookup_set.
  destruct (String.eqb_spec k k') as [->|Hne].
  - split; eauto.
  - split; [by right | by intros [?|?]].
Qed.
End AssocListFacts.

Lemma obj_lookup_filter_ne k k' (o : obj) :
  obj_lookup k (filter (fun kv => negb (String.eqb kv.1 k')) o)
  = if String.eqb k k' then None else obj_lookup k o.
Proof.
  induction o as [|[k0 v0] o IH]; simpl.
  - by destruct (String.eqb k k').
  - rewrite filter_cons. simpl.
    destruct (String.eqb_spec k0 k') as [->|Hne]; simpl.
    + rewrite IH. by destruct (String.eqb k k').
    + rewrite IH. destruct (String.eqb_spec k k0) as [->|?]; [|done].
      by destruct (String.eqb_spec k0 k').
Qed.

Lemma obj_lookup_bindings k (o : obj) : obj_lookup k (bindings o) = obj_lookup k o.
Proof.
  induction o as [|[k0 v0] o IH]; simpl; [done|].
  destruct (String.eqb k k0) eqn:E; [done|].
  by rewrite obj_lookup_filter_ne, E.
Qed.

(** Spreading a list of pairwise distinct bindings: a key of the source
    wins over the target. *)
Lemma obj_lookup_foldl_set k (src base : obj) :
  NoDup (keys src) →
  obj_lookup k (foldl (fun acc kv => obj_set kv.1 kv.2 acc) base src)
  = match obj_lookup k src with Some v => Some v | None => obj_lookup k base end.
Proof.
  revert base. induction src as [|[k0 v0] src IH]; intros base Hnd; simpl; [done|].
  apply NoDup_cons in Hnd as [Hk0 Hnd].
  rewrite IH by done. rewrite obj_lookup_set.
  destruct (String.eqb_spec k k0) as [->|Hne]; [|done].
  destruct (obj_lookup k0 src) eqn:E; [|done].
  exfalso. apply Hk0. apply obj_lookup_keys. eauto.
Qed.

Lemma keys_filter_ne k' (o : obj) :
  keys (filter (fun kv => negb (String.eqb kv.1 k')) o) = filter (fun k => k ≠ k') (keys o).
Proof.
  unfold keys. induction o as [|[k0 v0] o IH]; simpl; [done|].
  rewrite !filter_cons. simpl.
  destruct (String.eqb_spec k0 k') as [->|Hne]; simpl.
  - rewrite decide_False by (by intros []). done.
  - rewrite decide_True by done. simpl. by f_equal.
Qed.

Lemma NoDup_bindings (o : obj) : NoDup (keys (bindings o)).
Proof.
  induction o as [|[k0 v0] o IH]; simpl; [constructor|].
  unfold keys in *. simpl. apply NoDup_cons. split.
  - fold (keys (filter (fun kv => negb (String.eqb kv.1 k0)) (bindings o))).
    rewrite keys_filter_ne. rewrite list_elem_of_filter. by intros [? _].
  - fold (keys (filter (fun kv => negb (String.eqb kv.1 k0)) (bindings o))).
    rewrite keys_filter_ne. by apply NoDup_filter.
Qed.

Lemma get_spread (base o : obj) k :
  obj_lookup k (spread base (VObj o))
  = match obj_lookup k o with Some v => Some v | None => obj_lookup k base end.
Proof.
  unfold spread. simpl. rewrite obj_lookup_foldl_set by apply NoDup_bindings.
  by rewrite obj_lookup_bindings.
Qed.

Lemma spread_absent (base : obj) v :
  own_entries v = [] → spread base v = base.
Proof. unfold spread. by intros ->. Qed.

(** ** Path normalization *)

Lemma strip_leading_slashes_start s :
  starts_with_slash (strip_leading_slashes s) = false.
Proof.
  induction s as [|c s IH]; simpl; [done|].
  destruct (Ascii.eqb c slash) eqn:E; [exact IH|]. simpl. exact E.
Qed.

Lemma strip_trailing_slashes_start s :
  starts_with_slash s = false → starts_with_slash (strip_trailing_slashes s) = false.
Proof.
  destruct s as [|c s]; simpl; [done|]. intros Hc.
  destruct (strip_trailing_slashes s); simpl; [|done].
  by rewrite Hc.
Qed.

Lemma strip_trailing_slashes_end s :
  ends_with_slash (strip_trailing_slashes s) = false.
Proof.
  induction s as [|c s IH]; simpl; [done|].
  destruct (strip_trailing_slashes s) as [|c' r] eqn:E.
  - destruct (Ascii.eqb c slash) eqn:Ec; simpl; [done|exact Ec].
  - exact IH.
Qed.

(** Whatever the input, a normalized path has exactly one leading slash
    and ends with a slash only when it is the root. *)
Lemma normalizePath_shape p :
  one_leading_slash (normalizePath p) = true
  ∧ (ends_with_slash (normalizePath p) = true → normalizePath p = "/").
Proof.
  unfold normalizePath. simpl.
  pose proof (strip_trailing_slashes_start _ (strip_leading_slashes_start p)) as Hs.
  pose proof (strip_trailing_slashes_end (strip_leading_slashes p)) as He.
  destruct (strip_trailing_slashes (strip_leading_slashes p)) as [|c r].
  - done.
  - simpl in Hs. split.
    + simpl. by rewrite Hs.
    + intros H. change (ends_with_slash (String c r) = true) in H.
      by rewrite He in H.
Qed.

(** C4.  For every base path and endpoint path segment among [""], ["/"],
    ["a"], ["/a/"] and ["a/b"], the full path that [exploreController]
    computes starts with exactly one slash and does not end with a slash
    unless it is the root ["/"]. *)
Theorem C4_full_path_normalized (basePath routePath : string) :
  basePath ∈ sample_paths →
  routePath ∈ sample_paths →
  one_leading_slash (fullPath basePath routePath) = true
  ∧ (ends_with_slash (fullPath basePath routePath) = true
     → fullPath basePath routePath = "/").
Proof. intros _ _. apply normalizePath_shape. Qed.

Lemma C4_full_path_normalized_witness :
  one_leading_slash (fullPath "/a/" "a/b") = true
  ∧ (ends_with_slash (fullPath "/a/" "a/b") = true → fullPath "/a/" "a/b" = "/").
Proof.
  apply (C4_full_path_normalized "/a/" "a/b");
    unfold sample_paths; rewrite !elem_of_cons; auto 10.
Defined.

(** The twenty-five full paths themselves. *)
Example full_paths_of_the_samples :
  (fun b => fullPath b <$> sample_paths) <$> sample_paths
  = [ ["/"; "/"; "/a"; "/a"; "/a/b"];
      ["/"; "/"; "/a"; "/a"; "/a/b"];
      ["/a"; "/a"; "/a/a"; "/a/a"; "/a/a/b"];
      ["/a"; "/a"; "/a//a"; "/a//a"; "/a//a/b"];
      ["/a/b"; "/a/b"; "/a/b/a"; "/a/b/a"; "/a/b/a/b"] ].
Proof. reflexivity. Qed.

(** ** The operation of an endpoint *)

Lemma iterate_array_or_absent v :
  array_or_absent v = true → iterate (or_else v (VArr [])) = Ok (elements v).
Proof.
  unfold or_else.
  by destruct v as [| |[]|n|s|xs|o]; simpl;
    try destruct (Z.eqb n 0); try destruct (String.eqb s "").
Qed.

Lemma build_operation_ok controllerTags swaggerMetadata full :
  array_or_absent controllerTags = true →
  array_or_absent (get swaggerMetadata "tags") = true →
  array_or_absent (get swaggerMetadata "parameters") = true →
  build_operation controllerTags swaggerMetadata full
  = Ok (operation_literal
          (elements controllerTags ++ elements (get swaggerMetadata "tags"))
          (get swaggerMetadata "operation")
          (extractPathParameters full ++ elements (get swaggerMetadata "parameters"))
          (get swaggerMetadata "requestBody")
          (or_else (get swaggerMetadata "responses") default_responses)).
Proof.
  intros H1 H2 H3. unfold build_operation.
  by rewrite !iterate_array_or_absent.
Qed.

Lemma operation_at_set full methodKey operation p :
  operation_at (set_operation full methodKey operation p) full methodKey = Some operation.
Proof.
  unfold operation_at, set_operation. rewrite obj_lookup_set_eq. simpl.
  apply obj_lookup_set_eq.
Qed.

(** Exploring one routed method stores the operation literal under the
    full path and the lower-cased HTTP method. *)
Lemma explore_method_stores G controller basePath controllerTags method rm ex :
  reflect_route G !! (class_id controller, method) = Some rm →
  array_or_absent controllerTags = true →
  array_or_absent (get (endpoint_metadata G controller method) "tags") = true →
  array_or_absent (get (endpoint_metadata G controller method) "parameters") = true →
  ∃ ex',
    explore_method G controller basePath controllerTags method ex = Ok ex'
    ∧ schemas ex' = schemas ex
    ∧ operation_at (paths ex') (fullPath basePath (route_path rm))
        (toLowerCase (route_method rm))
      = Some (operation_literal
                (elements controllerTags
                 ++ elements (get (endpoint_metadata G controller method) "tags"))
                (get (endpoint_metadata G controller method) "operation")
                (extractPathParameters (fullPath basePath (route_path rm))
                 ++ elements (get (endpoint_metadata G controller method) "parameters"))
                (get (endpoint_metadata G controller method) "requestBody")
                (or_else (get (endpoint_metadata G controller method) "responses")
                   default_responses)).
Proof.
  intros Hr H1 H2 H3. unfold explore_method. rewrite Hr.
  rewrite build_operation_ok by done. simpl.
  eexists. split; [reflexivity|]. split; [done|].
  simpl. apply operation_at_set.
Qed.

Lemma get_operation_literal_responses tags operation parameters requestBody responses :
  get (operation_literal tags operation parameters requestBody responses) "responses"
  = responses.
Proof. unfold operation_literal, get. by rewrite obj_lookup_set_eq. Qed.

Lemma get_operation_literal_parameters tags operation parameters requestBody responses :
  get (operation_literal tags operation parameters requestBody responses) "parameters"
  = VArr parameters.
Proof.
  unfold operation_literal, get.
  rewrite obj_lookup_set_ne by done. rewrite obj_lookup_set_ne by done.
  by rewrite obj_lookup_set_eq.
Qed.

Lemma get_operation_literal_tags tags o parameters requestBody responses :
  get (operation_literal tags (VObj o) parameters requestBody responses) "tags"
  = default (VArr tags) (obj_lookup "tags" o).
Proof.
  unfold operation_literal, get.
  rewrite !obj_lookup_set_ne by done.
  rewrite get_spread. by destruct (obj_lookup "tags" o).
Qed.

Lemma get_operation_literal_no_operation tags parameters requestBody responses :
  get (operation_literal tags VUndefined parameters requestBody responses) "tags"
  = VArr tags.
Proof. reflexivity. Qed.

(** ** Derived path parameters *)

Lemma split_slash_take_segment s :
  ∃ segments,
    split_slash s = (take_segment s).1 :: segments
    ∧ omap variable_of segments = template_variables (take_segment s).2
    ∧ (String.length (take_segment s).2 ≤ String.length s)%nat.
Proof.
  induction s as [|c s (segments & Hsplit & Hvars & Hlen)]; simpl.
  - by exists [].
  - destruct (Ascii.eqb c slash) eqn:Ec; simpl.
    + exists (split_slash s). unfold template_variables. simpl. by rewrite Ec.
    + destruct (take_segment s) as [segment rest] eqn:Ets. simpl in *.
      rewrite Hsplit. exists segments. repeat split; [done|lia].
Qed.

(** One step of the regular expression against the segment reading. *)
Lemma regex_exec_variables s :
  match regex_exec s with
  | Some (name, rest) =>
      template_variables s = name :: template_variables rest
      ∧ (String.length rest < String.length s)%nat
  | None => template_variables s = []
  end.
Proof.
  induction s as [|c s IH]; simpl; [done|].
  destruct (split_slash_take_segment s) as (segments & Hsplit & Hvars & Hlen).
  assert (Hsame : Ascii.eqb c colon = false → template_variables (String c s) = template_variables s).
  { intros Hc. unfold template_variables. simpl.
    destruct (Ascii.eqb c slash); simpl; [done|].
    rewrite Hsplit. simpl. by rewrite Hc. }
  destruct (Ascii.eqb c colon) eqn:Ec.
  - apply Ascii.eqb_eq in Ec as ->.
    assert (Hhere : template_variables (String colon s)
                    = match (take_segment s).1 with
                      | EmptyString => template_variables s
                      | name => name :: template_variables (take_segment s).2
                      end).
    { unfold template_variables at 1. simpl. rewrite Hsplit. simpl.
      change (list_omap string string variable_of segments)
        with (omap variable_of segments).
      assert (Hs : (take_segment s).1 = EmptyString →
                   template_variables s = omap variable_of segments).
      { intros E. unfold template_variables. rewrite Hsplit, E. done. }
      destruct (take_segment s).1; [by rewrite Hs|by rewrite Hvars]. }
    destruct (take_segment s) as [[|c' name] rest]; simpl in *.
    + rewrite Hhere. destruct (regex_exec s) as [[name rest']|]; [|done].
      destruct IH. split; [done|lia].
    + split; [done|lia].
  - rewrite Hsame by done.
    destruct (regex_exec s) as [[name rest']|]; [|done].
    destruct IH. split; [done|lia].
Qed.

Lemma extract_loop_variables fuel s :
  (String.length s ≤ fuel)%nat →
  extract_loop fuel s = derived_parameter <$> template_variables s.
Proof.
  revert s. induction fuel as [|fuel IH]; intros s Hlen; simpl.
  - destruct s; [reflexivity | simpl in Hlen; lia].
  - pose proof (regex_exec_variables s) as H.
    destruct (regex_exec s) as [[name rest]|].
    + destruct H as [-> Hlt]. simpl. f_equal. apply IH. lia.
    + by rewrite H.
Qed.

(** [extractPathParameters] yields one parameter per template variable,
    in the order of the path. *)
Lemma extractPathParameters_template_variables path :
  extractPathParameters path = derived_parameter <$> template_variables path.
Proof. by apply extract_loop_variables. Qed.

Example path_parameters_of_users_id :
  extractPathParameters "/users/:id/posts/:postId"
  = [derived_parameter "id"; derived_parameter "postId"].
Proof. reflexivity. Qed.

(** ** Claims about the operation of an endpoint *)

(** C1 (as stated, refuted).  [getUser] under ["/users/:id"] declares the
    path parameter [id] with [@ApiParam]; the operation still receives a
    derived parameter [id], placed before the declared one. *)
Lemma C1_counterexample :
  get (endpoint_metadata (Sample.with_store Sample.declared) Sample.UserController "getUser")
      "parameters"
  = VArr [VObj [("name", VStr "id"); ("description", VStr "User id"); ("in", VStr "path")]]
  ∧ (ex ← explore_method (Sample.with_store Sample.declared) Sample.UserController "users"
            (getControllerTags (Sample.with_store Sample.declared) Sample.UserController)
            "getUser" Sample.fresh;
     Ok (operation ← operation_at (paths ex) "/users/:id" "get";
         Some (get operation "parameters")))
    = Ok (Some (VArr [derived_parameter "id";
                      VObj [("name", VStr "id"); ("description", VStr "User id");
                            ("in", VStr "path")]])).
Proof. split; reflexivity. Qed.

(** C1 (amended).  For every explored endpoint whose tag and parameter
    metadata are arrays or absent, the parameter list of the emitted
    operation is one derived parameter [{ name, in: "path", required:
    true, schema: { type: "string" } }] per [:name] template variable of
    the normalized full path, in path order and whether or not a
    parameter of that name was declared, followed by the declared
    parameters in their order. *)
Theorem C1_derived_parameters_precede_declared
    G controller basePath controllerTags method rm ex :
  reflect_route G !! (class_id controller, method) = Some rm →
  array_or_absent controllerTags = true →
  array_or_absent (get (endpoint_metadata G controller method) "tags") = true →
  array_or_absent (get (endpoint_metadata G controller method) "parameters") = true →
  ∃ ex' operation,
    explore_method G controller basePath controllerTags method ex = Ok ex'
    ∧ operation_at (paths ex') (fullPath basePath (route_path rm))
        (toLowerCase (route_method rm)) = Some operation
    ∧ get operation "parameters"
      = VArr ((derived_parameter <$> template_variables (fullPath basePath (route_path rm)))
              ++ elements (get (endpoint_metadata G controller method) "parameters")).
Proof.
  intros Hr H1 H2 H3.
  destruct (explore_method_stores G controller basePath controllerTags method rm ex
              Hr H1 H2 H3) as (ex' & Hex & _ & Hop).
  eexists _, _. split; [exact Hex|]. split; [exact Hop|].
  rewrite get_operation_literal_parameters.
  by rewrite extractPathParameters_template_variables.
Qed.

Lemma C1_derived_parameters_precede_declared_witness :
  ∃ ex' operation,
    explore_method (Sample.with_store Sample.declared) Sample.UserController "users"
      (VArr [VStr "Admin"]) "getUser" Sample.fresh = Ok ex'
    ∧ operation_at (paths ex') (fullPath "users" ":id") (toLowerCase "GET") = Some operation
    ∧ get operation "parameters"
      = VArr ((derived_parameter <$> template_variables (fullPath "users" ":id"))
              ++ elements (get (endpoint_metadata (Sample.with_store Sample.declared)
                                  Sample.UserController "getUser") "parameters")).
Proof.
  exact (C1_derived_parameters_precede_declared
           (Sample.with_store Sample.declared) Sample.UserController "users"
           (VArr [VStr "Admin"]) "getUser" Sample.getUser_route Sample.fresh
           eq_refl eq_refl eq_refl eq_refl).
Defined.

(** C8.  For every explored endpoint (tag and parameter metadata arrays or
    absent), an endpoint without declared responses gets exactly the
    entry ["200"] with description ["Success"], and declared responses
    are emitted as they are. *)
Theorem C8_responses_default_or_declared
    G controller basePath controllerTags method rm ex :
  reflect_route G !! (class_id controller, method) = Some rm →
  array_or_absent controllerTags = true →
  array_or_absent (get (endpoint_metadata G controller method) "tags") = true →
  array_or_absent (get (endpoint_metadata G controller method) "parameters") = true →
  ∃ ex' operation,
    explore_method G controller basePath controllerTags method ex = Ok ex'
    ∧ operation_at (paths ex') (fullPath basePath (route_path rm))
        (toLowerCase (route_method rm)) = Some operation
    ∧ (get (endpoint_metadata G controller method) "responses" = VUndefined →
       get operation "responses" = VObj [("200", VObj [("description", VStr "Success")])])
    ∧ (∀ declared,
         get (endpoint_metadata G controller method) "responses" = VObj declared →
         get operation "responses" = VObj declared).
Proof.
  intros Hr H1 H2 H3.
  destruct (explore_method_stores G controller basePath controllerTags method rm ex
              Hr H1 H2 H3) as (ex' & Hex & _ & Hop).
  eexists _, _. split; [exact Hex|]. split; [exact Hop|].
  rewrite get_operation_literal_responses.
  split; [by intros ->|by intros declared ->].
Qed.

Lemma C8_responses_default_or_declared_witness :
  ∃ ex' operation,
    explore_method (Sample.with_store Sample.declared) Sample.UserController "users"
      (VArr [VStr "Admin"]) "getUser" Sample.fresh = Ok ex'
    ∧ operation_at (paths ex') (fullPath "users" ":id") (toLowerCase "GET") = Some operation
    ∧ (get (endpoint_metadata (Sample.with_store Sample.declared)
              Sample.UserController "getUser") "responses" = VUndefined →
       get operation "responses" = VObj [("200", VObj [("description", VStr "Success")])])
    ∧ (∀ declared,
         get (endpoint_metadata (Sample.with_store Sample.declared)
                Sample.UserController "getUser") "responses" = VObj declared →
         get operation "responses" = VObj declared).
Proof.
  exact (C8_responses_default_or_declared
           (Sample.with_store Sample.declared) Sample.UserController "users"
           (VArr [VStr "Admin"]) "getUser" Sample.getUser_route Sample.fresh
           eq_refl eq_refl eq_refl eq_refl).
Defined.

(** C10.  When the [ApiOperation] metadata of an endpoint has a [tags]
    key, the emitted operation carries exactly that value as its tags:
    the controller-level and method-level [ApiTags] are dropped, because
    the operation metadata is spread after the computed tag list. *)
Theorem C10_operation_tags_replace_api_tags
    G controller basePath controllerTags method rm ex o tags :
  reflect_route G !! (class_id controller, method) = Some rm →
  array_or_absent controllerTags = true →
  array_or_absent (get (endpoint_metadata G controller method) "tags") = true →
  array_or_absent (get (endpoint_metadata G controller method) "parameters") = true →
  get (endpoint_metadata G controller method) "operation" = VObj o →
  obj_lookup "tags" o = Some tags →
  ∃ ex' operation,
    explore_method G controller basePath controllerTags method ex = Ok ex'
    ∧ operation_at (paths ex') (fullPath basePath (route_path rm))
        (toLowerCase (route_method rm)) = Some operation
    ∧ get operation "tags" = tags.
Proof.
  intros Hr H1 H2 H3 Ho Ht.
  destruct (explore_method_stores G controller basePath controllerTags method rm ex
              Hr H1 H2 H3) as (ex' & Hex & _ & Hop).
  eexists _, _. split; [exact Hex|]. split; [exact Hop|].
  by rewrite Ho, get_operation_literal_tags, Ht.
Qed.

Lemma C10_operation_tags_replace_api_tags_witness :
  get (endpoint_metadata (Sample.with_store Sample.overridden) Sample.UserController
         "getUser") "tags" = VArr [VStr "Users"]
  ∧ ∃ ex' operation,
      explore_method (Sample.with_store Sample.overridden) Sample.UserController "users"
        (VArr [VStr "Admin"]) "getUser" Sample.fresh = Ok ex'
      ∧ operation_at (paths ex') (fullPath "users" ":id") (toLowerCase "GET")
        = Some operation
      ∧ get operation "tags" = VArr [VStr "Accounts"].
Proof.
  split; [reflexivity|].
  exact (C10_operation_tags_replace_api_tags
           (Sample.with_store Sample.overridden) Sample.UserController "users"
           (VArr [VStr "Admin"]) "getUser" Sample.getUser_route Sample.fresh
           [("summary", VStr "Get user by id"); ("tags", VArr [VStr "Accounts"])]
           (VArr [VStr "Accounts"])
           eq_refl eq_refl eq_refl eq_refl eq_refl eq_refl).
Defined.

(** ** Claims about the annotations *)

Lemma getMetadata_insert (st : SwaggerStore) t member v :
  getMetadata (<[(t, member) := v]> st) t member = v.
Proof. unfold getMetadata. by rewrite lookup_insert_eq. Qed.

Lemma ApiOperation_metadata metadata c m st :
  get (getMetadata (ApiOperation metadata c m st) (Prototype c) (Some m)) "operation"
  = metadata.
Proof.
  unfold ApiOperation. rewrite getMetadata_insert. unfold get.
  by rewrite obj_lookup_set_eq.
Qed.

Lemma ApiTags_metadata tags site st :
  getMetadata (ApiTags tags site st) (site_key site).1 (site_key site).2
  = VObj (obj_set "tags" (string_array tags)
            (spread [] (existing st (site_key site).1 (site_key site).2))).
Proof. destruct site; simpl; apply getMetadata_insert. Qed.

Lemma ApiSecurity_metadata name scopes site st :
  getMetadata (ApiSecurity name scopes site st) (site_key site).1 (site_key site).2
  = VObj (obj_set "security" (VArr [VObj [(name, string_array scopes)]])
            (spread [] (existing st (site_key site).1 (site_key site).2))).
Proof. destruct site; simpl; apply getMetadata_insert. Qed.

Lemma array_or_absent_or_else v :
  array_or_absent v = true → or_else v (VArr []) = VArr (elements v).
Proof.
  unfold or_else.
  by destruct v as [| |[]|n|s|xs|o]; simpl;
    try destruct (Z.eqb n 0); try destruct (String.eqb s "").
Qed.

(** C5 (as stated, refuted).  Two [ApiTags] on the same method leave the
    tags of the later one only, and two [ApiSecurity] leave the
    requirement of the later one only: neither list is the concatenation
    of the contributions. *)
Lemma C5_counterexample :
  get (getMetadata
         (ApiTags ["Users"] (OnMethod 1 "getUser")
            (ApiTags ["Admin"] (OnMethod 1 "getUser") ∅))
         (Prototype 1) (Some "getUser")) "tags"
  = VArr [VStr "Users"]
  ∧ get (getMetadata
           (ApiSecurity "jwt" ["write"] (OnMethod 1 "getUser")
              (ApiSecurity "apiKey" ["read"] (OnMethod 1 "getUser") ∅))
           (Prototype 1) (Some "getUser")) "security"
    = VArr [VObj [("jwt", VArr [VStr "write"])]].
Proof. split; reflexivity. Qed.

(** C5 (amended).  Of the list fields, only [parameters] accumulates:
    [ApiParam] and [ApiQuery] append their parameter to the parameters
    already recorded for the method.  [ApiTags] and [ApiSecurity]
    replace the list an earlier application left on the same target.  In
    the emitted operation the controller tags precede the method tags
    whenever the operation metadata brings no [tags] of its own; a
    controller tag ["Admin"] and a method tag ["Users"] give exactly
    [["Admin", "Users"]]. *)
Theorem C5_list_fields_merge
    (st : SwaggerStore) (site : Site) (first second : list string)
    (name1 name2 : string) (scopes1 scopes2 : list string)
    (location : string) (param : value) (c : ClassId) (m : string)
    (G : Global) (controller : Class) (basePath method : string)
    (rm : RouteMetadata) (ex : Explorer) :
  array_or_absent (get (existing st (Prototype c) (Some m)) "parameters") = true →
  reflect_route G !! (class_id controller, method) = Some rm →
  array_or_absent (get (class_metadata G (class_id controller)) "tags") = true →
  array_or_absent (get (endpoint_metadata G controller method) "tags") = true →
  array_or_absent (get (endpoint_metadata G controller method) "parameters") = true →
  without_tags (get (endpoint_metadata G controller method) "operation") = true →
  get (getMetadata (ApiTags second site (ApiTags first site st))
         (site_key site).1 (site_key site).2) "tags"
  = string_array second
  ∧ get (getMetadata (ApiSecurity name2 scopes2 site (ApiSecurity name1 scopes1 site st))
           (site_key site).1 (site_key site).2) "security"
    = VArr [VObj [(name2, string_array scopes2)]]
  ∧ (∃ st',
       add_parameter location param c m st = Ok st'
       ∧ get (getMetadata st' (Prototype c) (Some m)) "parameters"
         = VArr (elements (get (existing st (Prototype c) (Some m)) "parameters")
                 ++ [VObj (obj_set "in" (VStr location) (spread [] param))]))
  ∧ (∃ ex' operation,
       explore_method G controller basePath (getControllerTags G controller) method ex
       = Ok ex'
       ∧ operation_at (paths ex') (fullPath basePath (route_path rm))
           (toLowerCase (route_method rm)) = Some operation
       ∧ get operation "tags"
         = VArr (elements (get (class_metadata G (class_id controller)) "tags")
                 ++ elements (get (endpoint_metadata G controller method) "tags")))
  ∧ (r ← explore (Sample.with_store Sample.tagged) 1 [Sample.UserModule] Sample.fresh;
     Ok (operation ← operation_at (paths r.2) "/users/:id" "get";
         Some (get operation "tags")))
    = Ok (Some (VArr [VStr "Admin"; VStr "Users"])).
Proof.
  intros Hp Hr Hc Ht Hps Hop.
  split; [|split; [|split; [|split]]].
  - rewrite ApiTags_metadata. unfold get. by rewrite obj_lookup_set_eq.
  - rewrite ApiSecurity_metadata. unfold get. by rewrite obj_lookup_set_eq.
  - unfold add_parameter. rewrite (array_or_absent_or_else _ Hp). simpl.
    eexists. split; [reflexivity|].
    rewrite getMetadata_insert. unfold get at 1. by rewrite obj_lookup_set_eq.
  - assert (Htags : getControllerTags G controller
                    = VArr (elements (get (class_metadata G (class_id controller)) "tags")))
      by apply (array_or_absent_or_else _ Hc).
    rewrite Htags.
    destruct (explore_method_stores G controller basePath
                (VArr (elements (get (class_metadata G (class_id controller)) "tags")))
                method rm ex Hr eq_refl Ht Hps) as (ex' & Hex & _ & Hoperation).
    eexists _, _. split; [exact Hex|]. split; [exact Hoperation|].
    cbn [elements].
    destruct (get (endpoint_metadata G controller method) "operation")
      as [| | | | | |o]; try discriminate Hop.
    + apply get_operation_literal_no_operation.
    + rewrite get_operation_literal_tags. simpl in Hop.
      by destruct (obj_lookup "tags" o).
  - reflexivity.
Qed.

Lemma C5_list_fields_merge_witness :
  get (getMetadata
         (ApiTags ["Users"] (OnClass 1) (ApiTags ["Admin"] (OnClass 1) Sample.declared))
         (Constructor 1) None) "tags"
  = string_array ["Users"]
  ∧ get (getMetadata
           (ApiSecurity "jwt" [] (OnClass 1)
              (ApiSecurity "apiKey" [] (OnClass 1) Sample.declared))
           (Constructor 1) None) "security"
    = VArr [VObj [("jwt", string_array [])]]
  ∧ (∃ st',
       add_parameter "query" (VObj [("name", VStr "page")]) 1 "getUser" Sample.declared
       = Ok st'
       ∧ get (getMetadata st' (Prototype 1) (Some "getUser")) "parameters"
         = VArr (elements (get (existing Sample.declared (Prototype 1) (Some "getUser"))
                             "parameters")
                 ++ [VObj (obj_set "in" (VStr "query")
                             (spread [] (VObj [("name", VStr "page")])))]))
  ∧ (∃ ex' operation,
       explore_method (Sample.with_store Sample.tagged) Sample.UserController "users"
         (getControllerTags (Sample.with_store Sample.tagged) Sample.UserController)
         "getUser" Sample.fresh
       = Ok ex'
       ∧ operation_at (paths ex') (fullPath "users" ":id") (toLowerCase "GET")
         = Some operation
       ∧ get operation "tags"
         = VArr (elements (get (class_metadata (Sample.with_store Sample.tagged) 1) "tags")
                 ++ elements (get (endpoint_metadata (Sample.with_store Sample.tagged)
                                     Sample.UserController "getUser") "tags")))
  ∧ (r ← explore (Sample.with_store Sample.tagged) 1 [Sample.UserModule] Sample.fresh;
     Ok (operation ← operation_at (paths r.2) "/users/:id" "get";
         Some (get operation "tags")))
    = Ok (Some (VArr [VStr "Admin"; VStr "Users"])).
Proof.
  exact (C5_list_fields_merge Sample.declared (OnClass 1) ["Admin"] ["Users"]
           "apiKey" "jwt" [] []
           "query" (VObj [("name", VStr "page")]) 1 "getUser"
           (Sample.with_store Sample.tagged) Sample.UserController "users" "getUser"
           Sample.getUser_route Sample.fresh
           eq_refl eq_refl eq_refl eq_refl eq_refl eq_refl).
Defined.

Lemma get_set_spread (o : obj) k0 v k :
  get (VObj (obj_set k0 v (spread [] (VObj o)))) k
  = if String.eqb k k0 then v else get (VObj o) k.
Proof.
  unfold get. rewrite obj_lookup_set.
  destruct (String.eqb k k0); [done|].
  rewrite get_spread. by destruct (obj_lookup k o).
Qed.

Lemma existing_record st t member :
  record_at st t member = true →
  ∃ o, existing st t member = VObj o
       ∧ ∀ k, get (VObj o) k = get (getMetadata st t member) k.
Proof.
  unfold record_at, existing, getMetadata.
  destruct (st !! (t, member)) as [[]|]; try done; intros _; by eexists.
Qed.

(** C6 (as stated, refuted).  After two applications of a security
    annotation for the same scheme to the same target, the security list
    of the target holds one requirement entry, not two; and
    [ApiSecurity] records no scheme definition at all. *)
Lemma C6_counterexample :
  get (getMetadata
         (ApiBasicAuth (VObj [("description", VStr "second")]) (OnClass 1)
            (ApiBasicAuth (VObj [("description", VStr "first")]) (OnClass 1) ∅))
         (Constructor 1) None) "security"
  = VArr [VObj [("basicAuth", VArr [])]]
  ∧ get (getMetadata
           (ApiSecurity "jwt" ["read"] (OnClass 1) (ApiSecurity "jwt" ["read"] (OnClass 1) ∅))
           (Constructor 1) None) "security"
    = VArr [VObj [("jwt", VArr [VStr "read"])]]
  ∧ get (getMetadata (ApiSecurity "jwt" ["read"] (OnClass 1) ∅) (Constructor 1) None)
        "components"
    = VUndefined.
Proof. repeat split; reflexivity. Qed.

(** C6 (amended).  A scheme annotation ([ApiBasicAuth], [ApiBearerAuth],
    [ApiOAuth2]) replaces the metadata record of its target, whatever it
    held, by one that holds exactly the scheme definition under
    [components.securitySchemes] and a security list of exactly one
    requirement entry; applied again, the later scheme definition stands
    and the list still has one entry.  [ApiSecurity] sets the security
    list of its target to the single entry of the scheme name and its
    scopes, replacing an earlier list; every other field of the record,
    [components] included, is what it was, so it records no scheme
    definition.  The number of requirement entries is one after any
    number of applications. *)
Theorem C6_security_annotation_replaces
    (st : SwaggerStore) (site : Site) (previous options flows : value)
    (name previous_name : string) (scopes previous_scopes : list string) :
  getMetadata (ApiBasicAuth options site (ApiBasicAuth previous site st))
    (site_target site) None
  = VObj [("components",
           VObj [("securitySchemes",
                  VObj [("basicAuth",
                         VObj (spread [("type", VStr "http"); ("scheme", VStr "basic")]
                                 options))])]);
          ("security", VArr [VObj [("basicAuth", VArr [])]])]
  ∧ getMetadata (ApiBearerAuth options site (ApiBearerAuth previous site st))
      (site_target site) None
    = VObj [("components",
             VObj [("securitySchemes",
                    VObj [("bearerAuth",
                           VObj (spread [("type", VStr "http"); ("scheme", VStr "bearer");
                                         ("bearerFormat", VStr "JWT")] options))])]);
            ("security", VArr [VObj [("bearerAuth", VArr [])]])]
  ∧ getMetadata (ApiOAuth2 flows site (ApiOAuth2 previous site st))
      (site_target site) None
    = VObj [("components",
             VObj [("securitySchemes",
                    VObj [("oauth2",
                           VObj [("type", VStr "oauth2"); ("flows", flows)])])]);
            ("security", VArr [VObj [("oauth2", VArr [])]])]
  ∧ (∀ before : SwaggerStore,
       getMetadata (ApiBasicAuth options site before) (site_target site) None
       = getMetadata (ApiBasicAuth options site (ApiBasicAuth previous site st))
           (site_target site) None
       ∧ getMetadata (ApiBearerAuth options site before) (site_target site) None
         = getMetadata (ApiBearerAuth options site (ApiBearerAuth previous site st))
             (site_target site) None
       ∧ getMetadata (ApiOAuth2 flows site before) (site_target site) None
         = getMetadata (ApiOAuth2 flows site (ApiOAuth2 previous site st))
             (site_target site) None)
  ∧ get (getMetadata
           (ApiSecurity name scopes site (ApiSecurity previous_name previous_scopes site st))
           (site_key site).1 (site_key site).2) "security"
    = VArr [VObj [(name, string_array scopes)]]
  ∧ getMetadata (ApiSecurity name scopes site ∅) (site_key site).1 (site_key site).2
    = VObj [("security", VArr [VObj [(name, string_array scopes)]])]
  ∧ (record_at st (site_key site).1 (site_key site).2 = true →
     ∀ k,
       get (getMetadata (ApiSecurity name scopes site st)
              (site_key site).1 (site_key site).2) k
       = if String.eqb k "security" then VArr [VObj [(name, string_array scopes)]]
         else get (getMetadata st (site_key site).1 (site_key site).2) k).
Proof.
  split; [|split; [|split; [|split; [|split; [|split]]]]].
  - unfold ApiBasicAuth. by rewrite getMetadata_insert.
  - unfold ApiBearerAuth. by rewrite getMetadata_insert.
  - unfold ApiOAuth2. by rewrite getMetadata_insert.
  - intros before. unfold ApiBasicAuth, ApiBearerAuth, ApiOAuth2.
    by rewrite !getMetadata_insert.
  - rewrite ApiSecurity_metadata. unfold get. by rewrite obj_lookup_set_eq.
  - rewrite ApiSecurity_metadata. by destruct site.
  - intros Hrecord k.
    destruct (existing_record _ _ _ Hrecord) as (o & He & Hg).
    rewrite ApiSecurity_metadata, He, get_set_spread. by rewrite Hg.
Qed.

Lemma C6_security_annotation_replaces_witness :
  get (getMetadata
         (ApiSecurity "jwt" ["read"] (OnClass 1)
            (ApiBasicAuth (VObj [("description", VStr "login")]) (OnClass 1) ∅))
         (Constructor 1) None) "components"
  = get (getMetadata (ApiBasicAuth (VObj [("description", VStr "login")]) (OnClass 1) ∅)
           (Constructor 1) None) "components"
  ∧ get (getMetadata
           (ApiSecurity "jwt" ["read"] (OnClass 1)
              (ApiBasicAuth (VObj [("description", VStr "login")]) (OnClass 1) ∅))
           (Constructor 1) None) "security"
    = VArr [VObj [("jwt", string_array ["read"])]].
Proof.
  destruct (C6_security_annotation_replaces
              (ApiBasicAuth (VObj [("description", VStr "login")]) (OnClass 1) ∅)
              (OnClass 1) (VObj []) (VObj []) (VObj []) "jwt" "jwt" ["read"] [])
    as (_ & _ & _ & _ & _ & _ & Hfields).
  split; [exact (Hfields eq_refl "components")|exact (Hfields eq_refl "security")].
Defined.

(** ** Claims about [explore] as a whole *)

Lemma explore_ignores_state G fuel modules ex1 ex2 :
  explore G fuel modules ex1 = explore G fuel modules ex2.
Proof. reflexivity. Qed.

(** C2.  Two successive calls of [explore], the second on the state the
    first one left, return the same output whenever the first returns
    one, and fail together otherwise: the accumulators are reset at the
    start of each call, so the result is the same from every state of
    the explorer and the earlier call has no influence. *)
Theorem C2_explore_twice_identical G fuel modules ex :
  explore_twice G fuel modules ex
  = ('(out, _) ← explore G fuel modules ex; Ok (out, out))
  ∧ ∀ ex', explore G fuel modules ex' = explore G fuel modules ex.
Proof.
  split; [|intros ex'; apply explore_ignores_state].
  unfold explore_twice.
  destruct (explore G fuel modules ex) as [[out ex1]| |] eqn:E; simpl; [|done|done].
  by rewrite (explore_ignores_state G fuel modules ex1 ex), E.
Qed.

Example explore_twice_on_the_sample :
  ∃ out, explore_twice (Sample.with_store Sample.declared) 1 [Sample.UserModule]
           Sample.fresh = Ok (out, out).
Proof. eexists. reflexivity. Qed.

(** ** Structural validation *)

Lemma validate_false_iff document :
  validate document = false
  ↔ absent (get document "paths") = true
    ∨ absent (get (get document "info") "title") = true
    ∨ absent (get (get document "info") "version") = true.
Proof.
  unfold validate.
  destruct (absent (get document "paths")),
           (absent (get (get document "info") "title")),
           (absent (get (get document "info") "version")); simpl;
    intuition discriminate.
Qed.

(** C3.  [setDocument] throws the structural validation error exactly when
    [paths], [info.title] or [info.version] is absent, and then the
    service keeps the document it had, so the rejected one is never
    handed out; with all three present the document is stored.  In
    [setupSwagger] the two routes are registered only after [setDocument]
    has returned: whenever the setup throws, no route has been added. *)
Theorem C3_structural_validation
    (setConfig : SwaggerConfig → SwaggerService → Outcome SwaggerService)
    (generateDocument : list Class → SwaggerService → Outcome SwaggerService)
    (getPaths getComponents : SwaggerService → value)
    (app : App) (config : SwaggerConfig) (modules : list Class)
    (document : value) (svc : SwaggerService) :
  (setDocument document svc = Threw StructuralValidationError svc
   ↔ absent (get document "paths") = true
     ∨ absent (get (get document "info") "title") = true
     ∨ absent (get (get document "info") "version") = true)
  ∧ ((∃ svc', setDocument document svc = Returned svc'
              ∧ getDocument svc' = Some document)
     ↔ absent (get document "paths") = false
       ∧ absent (get (get document "info") "title") = false
       ∧ absent (get (get document "info") "version") = false)
  ∧ match setupSwagger setConfig generateDocument getPaths getComponents
            app config modules svc with
    | Threw _ (app', _) => app_routes app' = app_routes app
    | Returned (app', svc') =>
        ∃ complete,
          getDocument svc' = Some complete
          ∧ validate complete = true
          ∧ app_routes app'
            = (app_routes app
               ++ [docs_path config +:+ "/swagger.json"; docs_path config])%list
    end.
Proof.
  split; [|split].
  - rewrite <- validate_false_iff. unfold setDocument.
    destruct (validate document); split; intros H; congruence.
  - unfold setDocument.
    pose proof (validate_false_iff document) as Hv.
    destruct (validate document) eqn:E.
    + split.
      * intros _.
        destruct (absent (get document "paths")),
                 (absent (get (get document "info") "title")),
                 (absent (get (get document "info") "version"));
          simpl in Hv; intuition discriminate.
      * intros _. eexists. split; reflexivity.
    + split.
      * intros (svc' & [=] & _).
      * intros (H1 & H2 & H3). destruct Hv as [Hv _].
        destruct (Hv eq_refl) as [?|[?|?]]; congruence.
  - unfold setupSwagger.
    destruct (setConfig config svc) as [svc1|f svc1]; [|done].
    destruct (generateDocument modules svc1) as [svc2|f svc2]; [|done].
    destruct (completeDocument getPaths getComponents config svc2) as [complete| |];
      [|done|done].
    unfold setDocument. destruct (validate complete) eqn:E; [|done].
    exists complete. simpl. done.
Qed.

Example setDocument_rejects_the_empty_document svc :
  setDocument (VObj []) svc = Threw StructuralValidationError svc.
Proof. reflexivity. Qed.

Example setDocument_accepts_a_complete_document svc :
  ∃ svc',
    setDocument
      (VObj [("openapi", VStr "3.0.0");
             ("info", VObj [("title", VStr "Test API"); ("version", VStr "1.0.0")]);
             ("paths", VObj [])]) svc
    = Returned svc'.
Proof. eexists. reflexivity. Qed.

(** ** Reference resolution *)

Lemma resolveReference_step G fuel ref ex :
  resolveReference G (S fuel) ref ex
  = if truthy (get ref "$ref") then
      match get ref "$ref" with
      | VStr s =>
          match obj_lookup (last_segment s) (schemas ex) with
          | Some _ => Ok (ref, ex)
          | None =>
              match registry_get G (last_segment s) with
              | Some target =>
                  '(properties, ex') ←
                    transformProperties_with (resolveReference G fuel)
                      (or_else (get (class_metadata G target) "properties") (VObj [])) ex;
                  Ok (ref, with_schemas ex'
                             (obj_set (last_segment s)
                                (model_schema (class_metadata G target) properties)
                                (schemas ex')))
              | None => Ok (ref, ex)
              end
          end
      | _ => TypeError
      end
    else Ok (ref, ex).
Proof. reflexivity. Qed.

(** Resolve-if-absent: a reference to a model that is already in the
    schema map changes nothing. *)
Lemma resolveReference_present G fuel ref s ex :
  get ref "$ref" = VStr s →
  s ≠ "" →
  is_Some (obj_lookup (last_segment s) (schemas ex)) →
  resolveReference G (S fuel) ref ex = Ok (ref, ex).
Proof.
  intros Hr Hs [schema Hl]. simpl. rewrite Hr. simpl.
  destruct (String.eqb_spec s ""); [done|]. simpl. by rewrite Hl.
Qed.

(** A model whose array property refers to the model itself: the schema
    is stored only after its properties are transformed, so the
    reference inside finds the model still absent and resolves it again,
    at every depth. *)
Lemma transformProperties_with_exhausted resolve key items ex :
  truthy items = true →
  resolve items ex = OutOfFuel →
  transformProperties_with resolve (VObj [(key, Sample.array_of items)]) ex = OutOfFuel.
Proof.
  intros Ht Hr. unfold transformProperties_with. simpl.
  by rewrite Ht, Hr.
Qed.

Lemma resolveReference_self_reference fuel ex :
  obj_lookup "Tree" (schemas ex) = None →
  resolveReference Sample.tree_global fuel (Sample.ref_to "Tree") ex = OutOfFuel.
Proof.
  revert ex. induction fuel as [|fuel IH]; intros ex Hl; [done|].
  rewrite resolveReference_step.
  simpl.
  change (last_segment ("#/components/schemas/" +:+ "Tree")) with "Tree".
  rewrite Hl. simpl.
  change (or_else (get (class_metadata Sample.tree_global 10) "properties") (VObj []))
    with (VObj [("children", Sample.array_of (Sample.ref_to "Tree"))]).
  by rewrite transformProperties_with_exhausted; [| |apply IH].
Qed.

(** C9 (the code at the failing input).  With the self-referential model
    [Tree] in the registry, no recursion depth suffices for [explore]:
    the resolution does not terminate. *)
Theorem C9_self_reference_exhausts_every_fuel fuel modules ex :
  explore Sample.tree_global fuel modules ex = OutOfFuel.
Proof.
  unfold explore, collectGlobalSchemas. simpl.
  change (get (class_metadata Sample.tree_global 10) "properties")
    with (VObj [("children", Sample.array_of (Sample.ref_to "Tree"))]).
  unfold transformProperties. simpl.
  by rewrite transformProperties_with_exhausted;
    [| |apply resolveReference_self_reference].
Qed.

Lemma resolveReference_cycle fuel ex :
  obj_lookup "Author" (schemas ex) = None →
  obj_lookup "Book" (schemas ex) = None →
  resolveReference Sample.cycle_global fuel (Sample.ref_to "Author") ex = OutOfFuel
  ∧ resolveReference Sample.cycle_global fuel (Sample.ref_to "Book") ex = OutOfFuel.
Proof.
  revert ex. induction fuel as [|fuel IH]; intros ex Ha Hb; [done|].
  destruct (IH ex Ha Hb) as [IHa IHb]. split.
  - rewrite resolveReference_step.
    simpl.
    change (last_segment ("#/components/schemas/" +:+ "Author")) with "Author".
    rewrite Ha. simpl.
    change (or_else (get (class_metadata Sample.cycle_global 20) "properties") (VObj []))
      with (VObj [("books", Sample.array_of (Sample.ref_to "Book"))]).
    by rewrite transformProperties_with_exhausted.
  - rewrite resolveReference_step.
    simpl.
    change (last_segment ("#/components/schemas/" +:+ "Book")) with "Book".
    rewrite Hb. simpl.
    change (or_else (get (class_metadata Sample.cycle_global 21) "properties") (VObj []))
      with (VObj [("authors", Sample.array_of (Sample.ref_to "Author"))]).
    by rewrite transformProperties_with_exhausted.
Qed.

(** The same happens for two models that refer to each other. *)
Lemma explore_cycle_exhausts_every_fuel fuel modules ex :
  explore Sample.cycle_global fuel modules ex = OutOfFuel.
Proof.
  unfold explore, collectGlobalSchemas. simpl.
  change (get (class_metadata Sample.cycle_global 20) "properties")
    with (VObj [("books", Sample.array_of (Sample.ref_to "Book"))]).
  unfold transformProperties. simpl.
  by rewrite transformProperties_with_exhausted;
    [| |apply resolveReference_cycle].
Qed.

(** ** Seeding the schema map *)

Lemma for_each_related {A S : Type} (R : S → S → Prop) (body : A → S → Res S) l s :
  (∀ s, R s s) →
  (∀ a b c, R a b → R b c → R a c) →
  (∀ x s, x ∈ l → ∃ s', body x s = Ok s' ∧ R s s') →
  ∃ s', for_each body l s = Ok s' ∧ R s s'.
Proof.
  intros Hrefl Htrans. revert s.
  induction l as [|x l IH]; intros s Hbody; simpl.
  - eauto.
  - destruct (Hbody x s) as (s1 & -> & H1); [left|]. simpl.
    destruct (IH s1) as (s2 & -> & H2).
    + intros y t Hy. apply Hbody. by right.
    + eauto.
Qed.

Lemma grows_refl G ex : grows G ex ex.
Proof. split; auto. Qed.

Lemma grows_trans G a b c : grows G a b → grows G b c → grows G a c.
Proof.
  intros [H1 H2] [H3 H4]. split; [auto|].
  intros n Hn. destruct (H4 n Hn) as [?|?]; auto.
Qed.

Lemma grows_store G ex name schema :
  materializable G name →
  grows G ex (with_schemas ex (obj_set name schema (schemas ex))).
Proof.
  intros Hm. split; simpl; intros n; rewrite keys_obj_set.
  - auto.
  - intros [->|?]; auto.
Qed.

Lemma registry_get_registered G name c :
  registry_get G name = Some c → (name, c) ∈ registered G.
Proof.
  unfold registry_get, registered.
  destruct (swagger_schemas G) as [reg|]; simpl; [|done].
  apply obj_lookup_elem_of.
Qed.

Section Seeding.
Variable G : Global.
Variable rank : ClassId → nat.
Hypothesis Hshape : well_shaped G.
Hypothesis Hacyclic : acyclic G rank.

(** With a resolver that succeeds on the [items] of the properties of
    [c], the loop of [transformProperties] succeeds. *)
Lemma transformProperties_with_ok resolve name c ex :
  (name, c) ∈ registered G →
  (∀ key prop ex,
     (key, prop) ∈ own_entries (model_properties G c) →
     truthy (get prop "items") = true →
     ∃ ex', resolve (get prop "items") ex = Ok (get prop "items", ex') ∧ grows G ex ex') →
  ∃ transformed ex',
    transformProperties_with resolve (model_properties G c) ex = Ok (transformed, ex')
    ∧ grows G ex ex'.
Proof.
  intros Hreg Hresolve. unfold transformProperties_with.
  destruct (for_each_related (fun a b : obj * Explorer => grows G a.2 b.2)
              (transform_property resolve) (own_entries (model_properties G c)) ([], ex))
    as ([transformed ex'] & Hrun & Hgrows).
  - intros ?. apply grows_refl.
  - intros ???. apply grows_trans.
  - intros [key prop] [transformed ex0] Hin.
    destruct (Hshape name c key prop Hreg Hin) as (Hu & Hn & _).
    unfold transform_property.
    destruct (truthy (get prop "items")) eqn:Hitems.
    + destruct (Hresolve key prop ex0 Hin Hitems) as (ex1 & -> & Hg).
      destruct prop; try done; simpl; eauto.
    + destruct prop; try done; simpl; eexists; (split; [reflexivity|apply grows_refl]).
  - eauto.
Qed.

(** Enough depth for the rank of a class makes the transformation of its
    properties succeed. *)
Lemma transformProperties_ok fuel : ∀ name c ex,
  (name, c) ∈ registered G →
  (rank c < fuel)%nat →
  ∃ transformed ex',
    transformProperties G fuel (model_properties G c) ex = Ok (transformed, ex')
    ∧ grows G ex ex'.
Proof.
  induction fuel as [|fuel IH]; intros name c ex Hreg Hrank; [lia|].
  apply (transformProperties_with_ok _ name); [done|].
  intros key prop ex0 Hin Hitems.
  rewrite resolveReference_step.
  destruct (truthy (get (get prop "items") "$ref")) eqn:Href;
    [|eexists; split; [reflexivity|apply grows_refl]].
  destruct (Hshape name c key prop Hreg Hin) as (_ & _ & Hstr).
  destruct (Hstr Href) as [s Hs]. rewrite Hs.
  destruct (obj_lookup (last_segment s) (schemas ex0));
    [eexists; split; [reflexivity|apply grows_refl]|].
  destruct (registry_get G (last_segment s)) as [c'|] eqn:Hget;
    [|eexists; split; [reflexivity|apply grows_refl]].
  assert (Hrefers : refers_to G c (last_segment s)).
  { exists key, prop, s. repeat split; try done.
    intros ->. by rewrite Hs in Href. }
  pose proof (Hacyclic name c (last_segment s) c' Hreg Hrefers Hget) as Hlt.
  destruct (IH (last_segment s) c' ex0) as (transformed & ex1 & Hrun & Hg);
    [by apply registry_get_registered|lia|].
  unfold transformProperties, model_properties in Hrun. rewrite Hrun. simpl.
  eexists. split; [reflexivity|].
  eapply grows_trans; [exact Hg|]. apply grows_store.
  exists c'. split; [by apply registry_get_registered|]. right. eauto.
Qed.

Lemma collect_model_ok fuel name c ex :
  (name, c) ∈ registered G →
  (rank c < fuel)%nat →
  ∃ ex',
    collect_model G fuel (name, c) ex = Ok ex'
    ∧ grows G ex ex'
    ∧ (declares_properties G c = true → name ∈ keys (schemas ex')).
Proof.
  intros Hreg Hrank. unfold collect_model.
  destruct (truthy (get (class_metadata G c) "properties")) eqn:Hdecl.
  - destruct (transformProperties_ok fuel name c ex Hreg Hrank)
      as (transformed & ex1 & Hrun & Hg).
    unfold model_properties, or_else in Hrun. rewrite Hdecl in Hrun.
    rewrite Hrun. simpl. eexists. split; [reflexivity|]. split.
    + eapply grows_trans; [exact Hg|]. apply grows_store.
      exists c. split; [done|]. by left.
    + intros _. simpl. apply keys_obj_set. by left.
  - exists ex. split; [done|]. split; [apply grows_refl|].
    unfold declares_properties. by rewrite Hdecl.
Qed.

Lemma collect_models_ok fuel entries : ∀ ex,
  (∀ name c, (name, c) ∈ entries → (name, c) ∈ registered G ∧ (rank c < fuel)%nat) →
  ∃ ex',
    for_each (collect_model G fuel) entries ex = Ok ex'
    ∧ grows G ex ex'
    ∧ (∀ name c, (name, c) ∈ entries → declares_properties G c = true →
                 name ∈ keys (schemas ex')).
Proof.
  induction entries as [|[name c] entries IH]; intros ex Hall.
  - exists ex. split; [done|]. split; [apply grows_refl|].
    by intros ?? ?%elem_of_nil.
  - destruct (Hall name c) as [Hreg Hrank]; [left|].
    destruct (collect_model_ok fuel name c ex Hreg Hrank) as (ex1 & Hrun & Hg1 & Hhere).
    cbn [for_each]. rewrite Hrun. simpl.
    destruct (IH ex1) as (ex2 & -> & Hg2 & Hrest).
    { intros ???. apply Hall. by right. }
    exists ex2. split; [done|]. split; [by eapply grows_trans|].
    intros name' c' [[= -> ->]|Hin]%elem_of_cons Hdecl.
    + apply Hg2. by apply Hhere.
    + by eapply Hrest.
Qed.
End Seeding.

(** C7 (as stated, refuted).  [@ApiModel() class Empty {}] registers a
    model without any property; its metadata has the field [properties]
    with the empty object, which passes the test of the seeding loop, so
    the model is in the schema map that [explore] returns. *)
Lemma C7_counterexample :
  get (class_metadata Sample.empty_global 11) "properties" = VObj []
  ∧ registered Sample.empty_global = [("Empty", 11)]
  ∧ (r ← explore Sample.empty_global 1 [] Sample.fresh;
     Ok (obj_lookup "Empty" (schemas r.2)))
    = Ok (Some [("type", VStr "object"); ("properties", VObj [])]).
Proof. repeat split; reflexivity. Qed.

(** C7 (amended).  On a registry of well-shaped models whose [items]
    references are acyclic, seeding returns without an error, and: a
    registered model is in the resulting schema map whenever its
    metadata has a [properties] field, an empty one included; every name
    in the map is a registered model that has such a field or is the
    target of an [items] reference of a registered model.  A registered
    model with neither is skipped, silently. *)
Theorem C7_seeding_follows_the_properties_field G rank fuel :
  well_shaped G →
  acyclic G rank →
  (∀ name c, (name, c) ∈ registered G → (rank c < fuel)%nat) →
  ∃ ex,
    collectGlobalSchemas G fuel {| paths := []; schemas := [] |} = Ok ex
    ∧ (∀ name c,
         (name, c) ∈ registered G →
         declares_properties G c = true →
         name ∈ keys (schemas ex))
    ∧ (∀ name, name ∈ keys (schemas ex) → materializable G name).
Proof.
  intros Hshape Hacyclic Hfuel. unfold collectGlobalSchemas.
  destruct (swagger_schemas G) as [entries|] eqn:Hreg.
  - destruct (collect_models_ok G rank Hshape Hacyclic fuel entries
                {| paths := []; schemas := [] |}) as (ex & Hrun & [_ Hg] & Hdecl).
    { intros name c Hin. unfold registered in *. rewrite Hreg in *. simpl in *.
      split; [done|]. by eapply Hfuel. }
    exists ex. split; [done|]. split.
    + intros name c Hin. apply Hdecl.
      unfold registered in Hin. by rewrite Hreg in Hin.
    + intros name Hin. destruct (Hg name Hin) as [Hnil|?]; [|done].
      by apply elem_of_nil in Hnil.
  - eexists. split; [reflexivity|]. split.
    + unfold registered. rewrite Hreg. by intros ?? ?%elem_of_nil.
    + by intros ? ?%elem_of_nil.
Qed.

Lemma blog_registered name c :
  (name, c) ∈ registered Sample.blog_global →
  (name, c) = ("Post", 13) ∨ (name, c) = ("User", 12) ∨ (name, c) = ("Bare", 14).
Proof.
  unfold registered. simpl. rewrite !elem_of_cons, elem_of_nil. tauto.
Qed.

Lemma blog_well_shaped : well_shaped Sample.blog_global.
Proof.
  intros name c key prop Hreg Hin.
  destruct (blog_registered _ _ Hreg) as [[= -> ->]|[[= -> ->]|[= -> ->]]];
    vm_compute in Hin;
    repeat (apply elem_of_cons in Hin as [[= -> ->]|Hin]);
    try (by apply elem_of_nil in Hin);
    (split; [done|split; [done|]]); intros Href; vm_compute in Href;
    try discriminate Href; vm_compute; eauto.
Qed.

Lemma blog_acyclic : acyclic Sample.blog_global Sample.blog_rank.
Proof.
  intros name c name' c' Hreg (key & prop & s & Hin & Hs & Hne & Hlast) Hget.
  destruct (blog_registered _ _ Hreg) as [[= -> ->]|[[= -> ->]|[= -> ->]]];
    vm_compute in Hin;
    repeat (apply elem_of_cons in Hin as [[= -> ->]|Hin]);
    try (by apply elem_of_nil in Hin);
    vm_compute in Hs; try discriminate Hs;
    injection Hs as <-; vm_compute in Hlast; subst name';
    vm_compute in Hget; injection Hget as <-; vm_compute; lia.
Qed.

Lemma blog_ranks name c :
  (name, c) ∈ registered Sample.blog_global → (Sample.blog_rank c < 2)%nat.
Proof.
  intros Hreg.
  destruct (blog_registered _ _ Hreg) as [[= -> ->]|[[= -> ->]|[= -> ->]]];
    vm_compute; lia.
Qed.

Lemma C7_seeding_follows_the_properties_field_witness :
  ∃ ex,
    collectGlobalSchemas Sample.blog_global 2 {| paths := []; schemas := [] |} = Ok ex
    ∧ (∀ name c,
         (name, c) ∈ registered Sample.blog_global →
         declares_properties Sample.blog_global c = true →
         name ∈ keys (schemas ex))
    ∧ (∀ name, name ∈ keys (schemas ex) → materializable Sample.blog_global name).
Proof.
  exact (C7_seeding_follows_the_properties_field Sample.blog_global Sample.blog_rank 2
           blog_well_shaped blog_acyclic blog_ranks).
Defined.

(** In the sample, [Bare] has no metadata and still enters the map,
    through the [items] of [Post]. *)
Example blog_schema_names :
  (ex ← collectGlobalSchemas Sample.blog_global 2 Sample.fresh; Ok (keys (schemas ex)))
  = Ok ["User"; "Bare"; "Post"].
Proof. reflexivity. Qed.

(** The controllers leave the schema map as the seeding made it. *)
Lemma explore_method_schemas G controller basePath controllerTags method ex ex' :
  explore_method G controller basePath controllerTags method ex = Ok ex' →
  schemas ex' = schemas ex.
Proof.
  unfold explore_method.
  destruct (reflect_route G !! (class_id controller, method)); [|by intros [= ->]].
  destruct (build_operation _ _ _); simpl; [|done|done]. by intros [= <-].
Qed.

Lemma for_each_preserves {A S B : Type} (f : S → B) (body : A → S → Res S) l :
  (∀ x s s', body x s = Ok s' → f s' = f s) →
  ∀ s s', for_each body l s = Ok s' → f s' = f s.
Proof.
  intros Hbody. induction l as [|x l IH]; intros s s'; simpl.
  - by intros [= ->].
  - destruct (body x s) as [s1| |] eqn:E; simpl; [|done|done].
    intros H. rewrite (IH _ _ H). by eapply Hbody.
Qed.

Lemma explore_schemas_are_seeded G fuel modules ex out ex' :
  explore G fuel modules ex = Ok (out, ex') →
  ∃ seeded,
    collectGlobalSchemas G fuel {| paths := []; schemas := [] |} = Ok seeded
    ∧ schemas ex' = schemas seeded.
Proof.
  unfold explore. simpl.
  destruct (collectGlobalSchemas G fuel _) as [seeded| |]; simpl; [|done|done].
  destruct (for_each (explore_module G) modules seeded) as [ex1| |] eqn:E;
    simpl; [|done|done].
  intros [= <- <-]. exists seeded. split; [done|].
  revert E. apply for_each_preserves. intros module.
  apply for_each_preserves. intros controller.
  apply for_each_preserves. intros method s s'.
  apply explore_method_schemas.
Qed.

(** * Further properties *)

(** ** Paths *)

Lemma string_app_cons c (s t : string) : String c s +:+ t = String c (s +:+ t).
Proof. reflexivity. Qed.

Lemma string_app_nil_l (t : string) : "" +:+ t = t.
Proof. reflexivity. Qed.

Lemma string_app_nil_r (s : string) : s +:+ "" = s.
Proof. induction s as [|c s IH]; [done|]. by rewrite string_app_cons, IH. Qed.

Lemma string_app_assoc (a b c : string) : (a +:+ b) +:+ c = a +:+ (b +:+ c).
Proof. induction a as [|x a IH]; [done|]. by rewrite !string_app_cons, IH. Qed.

Lemma strip_leading_slashes_id s :
  starts_with_slash s = false → strip_leading_slashes s = s.
Proof. destruct s as [|c s]; simpl; [done|]. by intros ->. Qed.

Lemma strip_trailing_slashes_cons c s :
  strip_trailing_slashes (String c s)
  = match strip_trailing_slashes s with
    | EmptyString => if Ascii.eqb c slash then EmptyString else String c EmptyString
    | r => String c r
    end.
Proof. reflexivity. Qed.

Lemma strip_trailing_slashes_id s :
  ends_with_slash s = false → strip_trailing_slashes s = s.
Proof.
  induction s as [|c s IH]; [done|]. destruct s as [|c' s'].
  - simpl. by intros ->.
  - intros H. change (ends_with_slash (String c' s') = false) in H.
    by rewrite strip_trailing_slashes_cons, (IH H).
Qed.

Lemma strip_trailing_slashes_app_slash s :
  strip_trailing_slashes (s +:+ "/") = strip_trailing_slashes s.
Proof.
  induction s as [|c s IH]; [done|].
  by rewrite string_app_cons, !strip_trailing_slashes_cons, IH.
Qed.

Lemma normalizePath_app_slash p : normalizePath (p +:+ "/") = normalizePath p.
Proof.
  unfold normalizePath. f_equal.
  induction p as [|c p IH]; [done|].
  rewrite string_app_cons. simpl.
  destruct (Ascii.eqb c slash); [exact IH|].
  rewrite <- string_app_cons. apply strip_trailing_slashes_app_slash.
Qed.

Lemma ends_with_slash_app a b :
  b ≠ "" → ends_with_slash (a +:+ b) = ends_with_slash b.
Proof.
  intros Hb. induction a as [|c a IH]; [done|].
  rewrite string_app_cons. simpl.
  destruct (a +:+ b) eqn:E; [|done].
  destruct a, b; done.
Qed.

(** X1.  Normalizing is idempotent: a full path that went through
    [normalizePath] is left as it is by a second pass. *)
Theorem normalizePath_idempotent (path : string) :
  normalizePath (normalizePath path) = normalizePath path.
Proof.
  pose proof (strip_trailing_slashes_start _ (strip_leading_slashes_start path)) as Hs.
  pose proof (strip_trailing_slashes_end (strip_leading_slashes path)) as He.
  unfold normalizePath. f_equal.
  change (strip_leading_slashes ("/" +:+ ?s)) with (strip_leading_slashes s).
  rewrite (strip_leading_slashes_id _ Hs).
  by rewrite (strip_trailing_slashes_id _ He).
Qed.

(** X2.  Leading slashes of the route path of a method do not matter, and
    an empty route path adds nothing to the base path of the controller:
    [@Get("/x")] and [@Get("x")] give the same full path, [@Get("")] and
    [@Get("/")] give the normalized base path. *)
Theorem fullPath_route_leading_slash (basePath routePath : string) :
  fullPath basePath ("/" +:+ routePath) = fullPath basePath routePath
  ∧ fullPath basePath "" = normalizePath basePath.
Proof.
  unfold fullPath. split.
  - destruct routePath as [|c r].
    + change (methodPath ("/" +:+ "")) with "/". change (methodPath "") with "".
      rewrite string_app_nil_r. apply normalizePath_app_slash.
    + reflexivity.
  - change (methodPath "") with "". by rewrite string_app_nil_r.
Qed.

(** X3.  Slashes inside a path are kept: a base path that ends with a
    slash, joined with a route path, gives a full path with a doubled
    slash where the two meet ([@Controller("api/")] with [@Get("users")]
    is documented under ["/api//users"]). *)
Theorem fullPath_keeps_inner_slashes (base route : string) :
  base ≠ "" →
  starts_with_slash base = false →
  route ≠ "" →
  starts_with_slash route = false →
  ends_with_slash route = false →
  fullPath (base +:+ "/") route = "/" +:+ base +:+ "//" +:+ route.
Proof.
  intros Hb Hbs Hr Hrs Hre. unfold fullPath, methodPath, normalizePath.
  destruct (String.eqb_spec route "") as [->|_]; [done|].
  rewrite (strip_leading_slashes_id route Hrs).
  rewrite string_app_assoc. change ("/" +:+ "/" +:+ route) with ("//" +:+ route).
  rewrite strip_leading_slashes_id by (by destruct base).
  rewrite strip_trailing_slashes_id; [done|].
  rewrite ends_with_slash_app by (by destruct route).
  by rewrite (ends_with_slash_app "//" route Hr).
Qed.

Lemma fullPath_keeps_inner_slashes_witness :
  fullPath ("api" +:+ "/") "users" = "/" +:+ "api" +:+ "//" +:+ "users".
Proof.
  apply (fullPath_keeps_inner_slashes "api" "users"); done.
Defined.

Lemma split_slash_cons s : ∃ segment rest, split_slash s = segment :: rest.
Proof.
  destruct s as [|c s]; simpl; [eauto|].
  destruct (Ascii.eqb c slash); [eauto|].
  destruct (split_slash s); eauto.
Qed.

Lemma join_split_slash s : join_slash (split_slash s) = s.
Proof.
  induction s as [|c s IH]; [done|]. simpl.
  destruct (split_slash_cons s) as (segment & rest & Hs). rewrite Hs in *.
  destruct (Ascii.eqb_spec c slash) as [->|_].
  - change (join_slash ("" :: segment :: rest))
      with ("" +:+ "/" +:+ join_slash (segment :: rest)).
    by rewrite IH.
  - destruct rest as [|next rest].
    + simpl in *. by rewrite IH.
    + change (join_slash (String c segment :: next :: rest))
        with (String c segment +:+ "/" +:+ join_slash (next :: rest)).
      change (join_slash (segment :: next :: rest))
        with (segment +:+ "/" +:+ join_slash (next :: rest)) in IH.
      by rewrite string_app_cons, IH.
Qed.

Lemma split_slash_segments s : Forall (fun segment => has_slash segment = false) (split_slash s).
Proof.
  induction s as [|c s IH]; simpl; [by repeat constructor|].
  destruct (Ascii.eqb c slash) eqn:Ec; [by constructor|].
  destruct (split_slash s) as [|segment rest]; [by repeat constructor; simpl; rewrite Ec|].
  apply Forall_cons in IH as [Hsegment Hrest].
  constructor; [|done]. simpl. by rewrite Ec, Hsegment.
Qed.

Lemma variable_of_spec segment name :
  variable_of segment = Some name
  ↔ name ≠ "" ∧ ∃ before, has_colon before = false ∧ segment = before +:+ ":" +:+ name.
Proof.
  split.
  - induction segment as [|c s IH]; simpl; [done|].
    destruct (Ascii.eqb_spec c colon) as [->|Hc].
    + destruct s; [done|]. intros [= <-]. split; [done|]. by exists "".
    + intros H. destruct (IH H) as (Hn & before & Hb & ->). split; [done|].
      exists (String c before). split; [|done]. simpl.
      by destruct (Ascii.eqb_spec c colon).
  - intros (Hn & before & Hb & ->).
    induction before as [|c before IH].
    + rewrite string_app_nil_l. change (":" +:+ name) with (String colon name).
      simpl. by destruct name.
    + simpl in Hb. apply orb_false_iff in Hb as [Hc Hb].
      rewrite string_app_cons. simpl. rewrite Hc. by apply IH.
Qed.

(** X4.  The derived path parameters, segment by segment.  Splitting a
    path at its slashes loses nothing ([join] gives the path back) and
    leaves segments without a slash; [extractPathParameters] yields, in
    order, one parameter for every segment that has text after its first
    colon, named by that text.  A parameter name is therefore never
    empty and never contains a slash, and a segment such as ["v1:id"]
    yields the parameter ["id"]. *)
Theorem path_parameters_by_segment (path : string) :
  join_slash (split_slash path) = path
  ∧ Forall (fun segment => has_slash segment = false) (split_slash path)
  ∧ extractPathParameters path
    = derived_parameter <$> omap variable_of (split_slash path)
  ∧ ∀ segment name,
      variable_of segment = Some name
      ↔ name ≠ ""
        ∧ ∃ before, has_colon before = false ∧ segment = before +:+ ":" +:+ name.
Proof.
  split; [apply join_split_slash|]. split; [apply split_slash_segments|].
  split; [apply extractPathParameters_template_variables|].
  apply variable_of_spec.
Qed.

(** ** Annotations on records *)

Lemma getMetadata_insert_ne (st : SwaggerStore) key t member v :
  (t, member) ≠ key → getMetadata (<[key := v]> st) t member = getMetadata st t member.
Proof. intros Hne. unfold getMetadata. by rewrite lookup_insert_ne. Qed.

(** X5.  Merging into a record.  On a target whose metadata is a record
    (or that has none), [ApiTags], [ApiSecurity], [ApiOperation] and
    [ApiBody] write their own field and leave every other field of the
    record as it was: a scalar field is last-write-wins, and nothing
    else is lost. *)
Theorem annotations_write_one_field
    (st : SwaggerStore) (site : Site) (c : ClassId) (m : string)
    (tags scopes : list string) (name : string) (operation body : value) (k : string) :
  record_at st (site_key site).1 (site_key site).2 = true →
  record_at st (Prototype c) (Some m) = true →
  get (getMetadata (ApiTags tags site st) (site_key site).1 (site_key site).2) k
  = (if String.eqb k "tags" then string_array tags
     else get (getMetadata st (site_key site).1 (site_key site).2) k)
  ∧ get (getMetadata (ApiSecurity name scopes site st) (site_key site).1 (site_key site).2) k
    = (if String.eqb k "security" then VArr [VObj [(name, string_array scopes)]]
       else get (getMetadata st (site_key site).1 (site_key site).2) k)
  ∧ get (getMetadata (ApiOperation operation c m st) (Prototype c) (Some m)) k
    = (if String.eqb k "operation" then operation
       else get (getMetadata st (Prototype c) (Some m)) k)
  ∧ get (getMetadata (ApiBody body c m st) (Prototype c) (Some m)) k
    = (if String.eqb k "requestBody" then body
       else get (getMetadata st (Prototype c) (Some m)) k).
Proof.
  intros Hsite Hmethod.
  destruct (existing_record _ _ _ Hsite) as (o1 & He1 & Hg1).
  destruct (existing_record _ _ _ Hmethod) as (o2 & He2 & Hg2).
  split; [|split; [|split]].
  - rewrite ApiTags_metadata, He1, get_set_spread. by rewrite Hg1.
  - rewrite ApiSecurity_metadata, He1, get_set_spread. by rewrite Hg1.
  - unfold ApiOperation. rewrite getMetadata_insert, He2, get_set_spread. by rewrite Hg2.
  - unfold ApiBody. rewrite getMetadata_insert, He2, get_set_spread. by rewrite Hg2.
Qed.

Lemma annotations_write_one_field_witness :
  get (getMetadata (ApiTags ["Users"] (OnMethod 1 "getUser") Sample.declared)
         (Prototype 1) (Some "getUser")) "parameters"
  = (if String.eqb "parameters" "tags" then string_array ["Users"]
     else get (getMetadata Sample.declared (Prototype 1) (Some "getUser")) "parameters")
  ∧ get (getMetadata (ApiSecurity "jwt" [] (OnMethod 1 "getUser") Sample.declared)
           (Prototype 1) (Some "getUser")) "parameters"
    = (if String.eqb "parameters" "security" then VArr [VObj [("jwt", string_array [])]]
       else get (getMetadata Sample.declared (Prototype 1) (Some "getUser")) "parameters")
  ∧ get (getMetadata (ApiOperation (VObj []) 1 "getUser" Sample.declared)
           (Prototype 1) (Some "getUser")) "parameters"
    = (if String.eqb "parameters" "operation" then VObj []
       else get (getMetadata Sample.declared (Prototype 1) (Some "getUser")) "parameters")
  ∧ get (getMetadata (ApiBody (VObj []) 1 "getUser" Sample.declared)
           (Prototype 1) (Some "getUser")) "parameters"
    = (if String.eqb "parameters" "requestBody" then VObj []
       else get (getMetadata Sample.declared (Prototype 1) (Some "getUser")) "parameters").
Proof.
  exact (annotations_write_one_field Sample.declared (OnMethod 1 "getUser") 1 "getUser"
           ["Users"] [] "jwt" (VObj []) (VObj []) "parameters" eq_refl eq_refl).
Defined.

Lemma existing_ApiTags_class tags c st :
  existing (ApiTags tags (OnClass c) st) (Constructor c) None
  = VObj (obj_set "tags" (string_array tags) (spread [] (existing st (Constructor c) None))).
Proof. unfold existing at 1, ApiTags. by rewrite getMetadata_insert. Qed.

Lemma existing_ApiBasicAuth_class options c st :
  existing (ApiBasicAuth options (OnClass c) st) (Constructor c) None
  = scheme_metadata "basicAuth"
      (spread [("type", VStr "http"); ("scheme", VStr "basic")] options).
Proof. unfold existing, ApiBasicAuth. simpl. by rewrite getMetadata_insert. Qed.

(** X7.  The order of a scheme annotation and [ApiTags] on a controller
    matters.  Applied after [ApiTags] (written above it), [ApiBasicAuth]
    replaces the record, and the controller contributes no tags any
    more; applied before, [ApiTags] merges into the record of the scheme
    and both survive. *)
Theorem scheme_annotation_drops_earlier_tags
    (G : Global) (st : SwaggerStore) (controller : Class) (options : value)
    (tags : list string) :
  getControllerTags
    (with_swagger G
       (ApiBasicAuth options (OnClass (class_id controller))
          (ApiTags tags (OnClass (class_id controller)) st))) controller
  = VArr []
  ∧ getControllerTags
      (with_swagger G
         (ApiTags tags (OnClass (class_id controller))
            (ApiBasicAuth options (OnClass (class_id controller)) st))) controller
    = string_array tags
  ∧ get (class_metadata
           (with_swagger G
              (ApiTags tags (OnClass (class_id controller))
                 (ApiBasicAuth options (OnClass (class_id controller)) st)))
           (class_id controller)) "security"
    = VArr [VObj [("basicAuth", VArr [])]].
Proof.
  unfold getControllerTags, class_metadata, with_swagger. cbn [reflect_swagger].
  rewrite existing_ApiTags_class, !existing_ApiBasicAuth_class.
  unfold scheme_metadata. rewrite !get_set_spread. done.
Qed.

Lemma for_each_ext {A S : Type} (body body' : A → S → Res S) l s :
  (∀ x s, x ∈ l → body x s = body' x s) → for_each body l s = for_each body' l s.
Proof.
  revert s. induction l as [|x l IH]; intros s Hbody; simpl; [done|].
  rewrite Hbody by left. destruct (body' x s); simpl; [|done|done].
  apply IH. intros y t Hy. apply Hbody. by right.
Qed.

Lemma build_operation_ext controllerTags md md' full :
  get md "tags" = get md' "tags" →
  get md "operation" = get md' "operation" →
  get md "parameters" = get md' "parameters" →
  get md "requestBody" = get md' "requestBody" →
  get md "responses" = get md' "responses" →
  build_operation controllerTags md full = build_operation controllerTags md' full.
Proof. unfold build_operation. by intros -> -> -> -> ->. Qed.

Lemma ApiSecurity_other_fields name scopes site st t member k :
  record_at st (site_key site).1 (site_key site).2 = true →
  k ≠ "security" →
  get (existing (ApiSecurity name scopes site st) t member) k
  = get (existing st t member) k.
Proof.
  intros Hrec Hk.
  destruct (decide ((t, member) = site_key site)) as [Heq|Hne].
  - assert (t = (site_key site).1 ∧ member = (site_key site).2) as [-> ->]
      by (by rewrite <- Heq).
    destruct (existing_record _ _ _ Hrec) as (o & He & _).
    unfold existing at 1. rewrite ApiSecurity_metadata, He.
    change (or_else (VObj ?x) (VObj [])) with (VObj x).
    rewrite get_set_spread. by destruct (String.eqb_spec k "security").
  - unfold existing. do 2 f_equal.
    destruct site; simpl in *; by apply getMetadata_insert_ne.
Qed.

(** X8.  A security requirement never reaches the explored paths.  On a
    target whose metadata is a record, [ApiSecurity] changes nothing in
    what [exploreController] emits for any controller: the explorer
    reads tags, operation, parameters, request body and responses, and
    never the [security] field. *)
Theorem ApiSecurity_is_not_explored
    (G : Global) (st : SwaggerStore) (name : string) (scopes : list string)
    (site : Site) (controller : Class) (ex : Explorer) :
  record_at st (site_key site).1 (site_key site).2 = true →
  exploreController (with_swagger G (ApiSecurity name scopes site st)) controller ex
  = exploreController (with_swagger G st) controller ex.
Proof.
  intros Hrec. unfold exploreController. simpl.
  assert (Htags : getControllerTags (with_swagger G (ApiSecurity name scopes site st))
                    controller
                  = getControllerTags (with_swagger G st) controller).
  { unfold getControllerTags, class_metadata. simpl.
    by rewrite ApiSecurity_other_fields. }
  rewrite Htags. apply for_each_ext. intros method s _.
  unfold explore_method. simpl.
  destruct (reflect_route G !! (class_id controller, method)); [|done].
  unfold endpoint_metadata. simpl.
  by rewrite (build_operation_ext _ _
                (existing st (Prototype (class_id controller)) (Some method)))
    by (by apply ApiSecurity_other_fields).
Qed.

Lemma ApiSecurity_is_not_explored_witness :
  exploreController
    (with_swagger (Sample.with_store ∅)
       (ApiSecurity "jwt" ["read"] (OnMethod 1 "getUser") Sample.declared))
    Sample.UserController Sample.fresh
  = exploreController (with_swagger (Sample.with_store ∅) Sample.declared)
      Sample.UserController Sample.fresh.
Proof.
  exact (ApiSecurity_is_not_explored (Sample.with_store ∅) Sample.declared "jwt" ["read"]
           (OnMethod 1 "getUser") Sample.UserController Sample.fresh eq_refl).
Defined.

(** ** [ApiModel] *)

Lemma truthy_or_else_object v : truthy (or_else v (VObj [])) = true.
Proof. unfold or_else. by destruct (truthy v) eqn:E. Qed.

Lemma ApiModel_class_metadata metadata target G :
  class_metadata (ApiModel metadata target G) (class_id target)
  = VObj (obj_set "properties" (model_properties G (class_id target))
            (obj_set "type" (VStr "object") (spread [] metadata))).
Proof.
  unfold class_metadata, existing, ApiModel. simpl.
  rewrite getMetadata_insert_ne by done. by rewrite getMetadata_insert.
Qed.

Lemma obj_set_twice {A : Type} k (v w : A) (o : list (string * A)) :
  obj_set k w (obj_set k v o) = obj_set k w o.
Proof.
  induction o as [|[k0 v0] o IH]; simpl.
  - by rewrite String.eqb_refl.
  - destruct (String.eqb k k0) eqn:E; simpl.
    + by rewrite String.eqb_refl.
    + by rewrite E, IH.
Qed.

(** X10.  Applying [ApiModel] again replaces the model-level metadata and
    nothing else: the second annotation alone decides the result, the
    properties and the place in the registry stay.  In particular the
    annotation is idempotent. *)
Theorem ApiModel_last_wins (first second : value) (target : Class) (G : Global) :
  ApiModel second target (ApiModel first target G) = ApiModel second target G.
Proof.
  unfold ApiModel at 1. 
  pose proof (ApiModel_class_metadata first target G) as Hmd.
  unfold class_metadata in Hmd. rewrite Hmd.
  assert (Hprops : or_else
            (get (VObj (obj_set "properties" (model_properties G (class_id target))
                          (obj_set "type" (VStr "object") (spread [] first))))
                 "properties") (VObj [])
          = model_properties G (class_id target)).
  { unfold get at 1. rewrite obj_lookup_set_eq.
    change (default VUndefined (Some ?x)) with x.
    unfold model_properties, or_else.
    by destruct (truthy (get (class_metadata G (class_id target)) "properties")) eqn:E;
      [rewrite E|]. }
  rewrite Hprops. unfold ApiModel. simpl. f_equal.
  - apply map_eq. intros key. rewrite !lookup_insert.
    by repeat case_decide.
  - unfold registry_set. simpl. by rewrite obj_set_twice.
Qed.

(** ** Type inference *)

Lemma obj_lookup_app {A : Type} k (o o' : list (string * A)) :
  obj_lookup k (o ++ o')
  = match obj_lookup k o with Some v => Some v | None => obj_lookup k o' end.
Proof.
  induction o as [|[k0 v0] o IH]; simpl; [done|].
  by destruct (String.eqb k k0).
Qed.

Lemma last_segment_from_no_slash acc s :
  has_slash s = false → last_segment_from acc s = acc +:+ s.
Proof.
  revert acc. induction s as [|c s IH]; intros acc; simpl.
  - by rewrite string_app_nil_r.
  - destruct (Ascii.eqb c slash); [done|]. simpl. intros Hs.
    rewrite IH by done. by rewrite string_app_assoc.
Qed.

Lemma last_segment_from_app acc a name :
  has_slash name = false → last_segment_from acc (a +:+ "/" +:+ name) = name.
Proof.
  intros Hn. revert acc. induction a as [|c a IH]; intros acc.
  - rewrite string_app_nil_l. change ("/" +:+ name) with (String slash name).
    simpl. by rewrite last_segment_from_no_slash.
  - rewrite string_app_cons. simpl. by destruct (Ascii.eqb c slash).
Qed.

Lemma last_segment_reference name :
  has_slash name = false → last_segment ("#/components/schemas/" +:+ name) = name.
Proof.
  intros Hn. unfold last_segment.
  change ("#/components/schemas/" +:+ name) with ("#/components/schemas" +:+ "/" +:+ name).
  by apply last_segment_from_app.
Qed.

(** X11.  The registry under [getSchemaForType].  A property whose type
    is a class puts the class into the registry under its name unless
    the name is taken; an entry that is there is never replaced or
    removed, so of two classes with one name the first stays.  Every
    other type leaves the registry untouched. *)
Theorem getSchemaForType_registry (t : JsType) (reg : option (list (string * ClassId))) :
  (∀ name c,
     obj_lookup name (default [] reg) = Some c →
     obj_lookup name (default [] (getSchemaForType t reg).2) = Some c)
  ∧ (∀ cls, t = TClass cls →
            is_Some (obj_lookup (class_name cls) (default [] (getSchemaForType t reg).2))
            ∧ (obj_lookup (class_name cls) (default [] reg) = None →
               obj_lookup (class_name cls) (default [] (getSchemaForType t reg).2)
               = Some (class_id cls)))
  ∧ ((∀ cls, t ≠ TClass cls) → (getSchemaForType t reg).2 = reg).
Proof.
  split; [|split].
  - intros name c Hl. destruct t; simpl; try done.
    unfold registry_add.
    destruct (obj_lookup (class_name c0) (default [] reg)); simpl; [done|].
    by rewrite obj_lookup_app, Hl.
  - intros cls ->. simpl. unfold registry_add.
    destruct (obj_lookup (class_name cls) (default [] reg)) eqn:E; simpl.
    + by rewrite E.
    + rewrite obj_lookup_app, E. simpl. rewrite String.eqb_refl. eauto.
  - intros Hne. destruct t; try done. by destruct (Hne c).
Qed.

(** X12.  The reference that the inference hands out for a class leads
    back to the class: for a class name without a slash, the last
    segment of the [$ref], which is what [resolveReference] looks up,
    is the class name, and after [getSchemaForType] that name is in the
    registry.  Where the name is no entry of [typeMap], the reference of
    [getSchemaFromType] is the same. *)
Theorem class_reference_round_trip
    (cls : Class) (reg : option (list (string * ClassId))) (G : Global) :
  has_slash (class_name cls) = false →
  swagger_schemas G = (getSchemaForType (TClass cls) reg).2 →
  ∃ s,
    get (getSchemaForType (TClass cls) reg).1 "$ref" = VStr s
    ∧ truthy (VStr s) = true
    ∧ last_segment s = class_name cls
    ∧ is_Some (registry_get G (last_segment s))
    ∧ (plain_constructor (TClass cls) = true →
       get (getSchemaFromType (TClass cls)) "$ref" = VStr s).
Proof.
  intros Hname HG. exists ("#/components/schemas/" +:+ class_name cls).
  split; [done|]. split; [done|].
  rewrite (last_segment_reference _ Hname). split; [done|]. split.
  - unfold registry_get. rewrite HG. simpl. unfold registry_add.
    destruct (obj_lookup (class_name cls) (default [] reg)) eqn:E; simpl.
    + by rewrite E.
    + rewrite obj_lookup_app, E. simpl. rewrite String.eqb_refl. eauto.
  - simpl. destruct (inherited_member (class_name cls)); [done|].
    by destruct (typeMap (class_name cls)).
Qed.

Lemma class_reference_round_trip_witness :
  ∃ s,
    get (getSchemaForType (TClass Demo.User) None).1 "$ref" = VStr s
    ∧ truthy (VStr s) = true
    ∧ last_segment s = class_name Demo.User
    ∧ is_Some (registry_get (Sample.no_controllers ∅ (Some [("User", 12)])) (last_segment s))
    ∧ (plain_constructor (TClass Demo.User) = true →
       get (getSchemaFromType (TClass Demo.User)) "$ref" = VStr s).
Proof.
  exact (class_reference_round_trip Demo.User None
           (Sample.no_controllers ∅ (Some [("User", 12)])) eq_refl eq_refl).
Defined.

(** X13.  The two inference functions agree on constructors: for no
    type, a built-in constructor or a class that does not bear the name
    of a [typeMap] entry (own or inherited), [getSchemaForType] and
    [getSchemaFromType] give the same schema.  They part on array literals, which only
    [getSchemaFromType] understands, reading the first element alone. *)
Theorem inference_functions_agree
    (t : JsType) (reg : option (list (string * ClassId)))
    (first : JsType) (others items : list JsType) :
  plain_constructor t = true →
  (getSchemaForType t reg).1 = getSchemaFromType t
  ∧ (getSchemaForType (TList items) reg).1 = VObj []
  ∧ getSchemaFromType (TList (first :: others))
    = VObj [("type", VStr "array"); ("items", getSchemaFromType first)].
Proof.
  intros Hplain. split; [|done].
  destruct t; try done. simpl in *.
  destruct (inherited_member (class_name c)); [done|].
  by destruct (typeMap (class_name c)).
Qed.

Lemma inference_functions_agree_witness :
  (getSchemaForType (TClass Demo.User) None).1 = getSchemaFromType (TClass Demo.User)
  ∧ (getSchemaForType (TList [TString]) None).1 = VObj []
  ∧ getSchemaFromType (TList [TClass Demo.User; TString])
    = VObj [("type", VStr "array"); ("items", getSchemaFromType (TClass Demo.User))].
Proof.
  exact (inference_functions_agree (TClass Demo.User) None (TClass Demo.User) [TString]
           [TString] eq_refl).
Defined.

(** ** Resolution only adds *)

Lemma extends_refl G ex : extends G ex ex.
Proof. repeat split; auto. Qed.

Lemma extends_trans G a b c : extends G a b → extends G b c → extends G a c.
Proof.
  intros (Hp1 & Hk1 & Hn1) (Hp2 & Hk2 & Hn2). split; [congruence|]. split; [auto|].
  intros name Hin. destruct (Hn2 name Hin) as [?|?]; auto.
Qed.

Lemma for_each_ok_related {A S : Type} (R : S → S → Prop) (body : A → S → Res S) l :
  (∀ s, R s s) →
  (∀ a b c, R a b → R b c → R a c) →
  (∀ x s s', x ∈ l → body x s = Ok s' → R s s') →
  ∀ s s', for_each body l s = Ok s' → R s s'.
Proof.
  intros Hrefl Htrans. induction l as [|x l IH]; intros Hbody s s'; simpl.
  - intros [= <-]. apply Hrefl.
  - destruct (body x s) as [s1| |] eqn:E; simpl; [|done|done].
    intros Hrest. eapply Htrans.
    + eapply Hbody; [left|exact E].
    + apply IH; [|done]. intros y t t' Hy. apply Hbody. by right.
Qed.

Lemma transform_property_extends G resolve entry transformed ex transformed' ex' :
  (∀ v ex r ex', resolve v ex = Ok (r, ex') → r = v ∧ extends G ex ex') →
  transform_property resolve entry (transformed, ex) = Ok (transformed', ex') →
  extends G ex ex'
  ∧ transformed' = obj_set entry.1 (copied entry.2) transformed.
Proof.
  intros Hresolve. destruct entry as [key prop]. unfold transform_property, copied. simpl.
  destruct (truthy (get prop "items")) eqn:Hitems.
  - destruct (resolve (get prop "items") ex) as [[r ex1]| |] eqn:E;
      destruct prop; simpl; try done;
      intros [= <- <-]; destruct (Hresolve _ _ _ _ E) as [-> Hext]; by split.
  - destruct prop; simpl; try done; intros [= <- <-]; split; auto using extends_refl.
Qed.

Lemma transformProperties_with_extends G resolve properties ex transformed ex' :
  (∀ v ex r ex', resolve v ex = Ok (r, ex') → r = v ∧ extends G ex ex') →
  transformProperties_with resolve properties ex = Ok (transformed, ex') →
  extends G ex ex'.
Proof.
  intros Hresolve. unfold transformProperties_with.
  apply (for_each_ok_related (fun a b : obj * Explorer => extends G a.2 b.2)).
  - intros ?. apply extends_refl.
  - intros ???. apply extends_trans.
  - intros entry [t1 ex1] [t2 ex2] _ Hstep.
    by destruct (transform_property_extends G resolve entry t1 ex1 t2 ex2 Hresolve Hstep).
Qed.

Lemma resolveReference_extends G fuel : ∀ ref ex r ex',
  resolveReference G fuel ref ex = Ok (r, ex') → r = ref ∧ extends G ex ex'.
Proof.
  induction fuel as [|fuel IH]; intros ref ex r ex'; [done|].
  rewrite resolveReference_step.
  destruct (truthy (get ref "$ref")); [|intros [= <- <-]; auto using extends_refl].
  destruct (get ref "$ref") as [| | | |s| |]; try done.
  destruct (obj_lookup (last_segment s) (schemas ex)) eqn:Habsent;
    [intros [= <- <-]; auto using extends_refl|].
  destruct (registry_get G (last_segment s)) as [target|] eqn:Hget;
    [|intros [= <- <-]; auto using extends_refl].
  destruct (transformProperties_with _ _ ex) as [[properties ex1]| |] eqn:Hrun;
    simpl; [|done|done].
  intros [= <- <-]. split; [done|].
  destruct (transformProperties_with_extends G _ _ _ _ _ IH Hrun) as (Hp & Hk & Hn).
  split; [done|]. split; simpl.
  - intros name schema Hl. rewrite obj_lookup_set_ne; [auto|].
    intros ->. by rewrite Habsent in Hl.
  - intros name [->|Hin]%keys_obj_set; [right; by rewrite Hget|auto].
Qed.

(** X14.  Resolution only adds.  Whenever [resolveReference] returns, it
    returns the reference it was given, it has left the paths alone,
    every schema that was in the map before the call is still there
    unchanged, and every name it added is a name of the registry.  A
    reference to a name that is not in the registry changes nothing and
    raises nothing: the call returns the reference and the state it was
    given. *)
Theorem resolveReference_only_adds G fuel ref ex :
  (∀ r ex',
     resolveReference G fuel ref ex = Ok (r, ex') →
     r = ref
     ∧ paths ex' = paths ex
     ∧ (∀ name schema,
          obj_lookup name (schemas ex) = Some schema →
          obj_lookup name (schemas ex') = Some schema)
     ∧ (∀ name, name ∈ keys (schemas ex') →
                name ∈ keys (schemas ex) ∨ is_Some (registry_get G name)))
  ∧ (∀ s,
       get ref "$ref" = VStr s →
       registry_get G (last_segment s) = None →
       resolveReference G (S fuel) ref ex = Ok (ref, ex)).
Proof.
  split; [apply resolveReference_extends|].
  intros s Hs Hunknown. rewrite resolveReference_step, Hs, Hunknown.
  destruct (truthy (VStr s)); [|done].
  by destruct (obj_lookup (last_segment s) (schemas ex)).
Qed.

Lemma resolveReference_only_adds_witness :
  (Sample.ref_to "User" = Sample.ref_to "User"
   ∧ paths (with_schemas Sample.fresh
              [("User", [("type", VStr "object");
                         ("properties",
                          VObj [("id", VObj [("type", VStr "string")]);
                                ("email", VObj [("type", VStr "string")])])])])
     = paths Sample.fresh
   ∧ (∀ name schema,
        obj_lookup name (schemas Sample.fresh) = Some schema →
        obj_lookup name
          (schemas (with_schemas Sample.fresh
              [("User", [("type", VStr "object");
                         ("properties",
                          VObj [("id", VObj [("type", VStr "string")]);
                                ("email", VObj [("type", VStr "string")])])])]))
        = Some schema)
   ∧ (∀ name,
        name ∈ keys
          (schemas (with_schemas Sample.fresh
              [("User", [("type", VStr "object");
                         ("properties",
                          VObj [("id", VObj [("type", VStr "string")]);
                                ("email", VObj [("type", VStr "string")])])])])) →
        name ∈ keys (schemas Sample.fresh) ∨ is_Some (registry_get Sample.blog_global name)))
  ∧ resolveReference Sample.blog_global 1 (Sample.ref_to "Ghost") Sample.fresh
    = Ok (Sample.ref_to "Ghost", Sample.fresh).
Proof.
  split.
  - exact (proj1 (resolveReference_only_adds Sample.blog_global 1 (Sample.ref_to "User")
                    Sample.fresh) _ _ eq_refl).
  - exact (proj2 (resolveReference_only_adds Sample.blog_global 0 (Sample.ref_to "Ghost")
                    Sample.fresh) _ eq_refl eq_refl).
Defined.

(** ** Seeding after [ApiModel] *)

Lemma obj_set_elem {A : Type} k (v : A) (o : list (string * A)) : (k, v) ∈ obj_set k v o.
Proof.
  induction o as [|[k0 v0] o IH]; simpl.
  - by left.
  - destruct (String.eqb k k0); [by left|by right].
Qed.

Lemma collect_model_keeps G fuel entry ex ex' name :
  collect_model G fuel entry ex = Ok ex' →
  is_Some (obj_lookup name (schemas ex)) →
  is_Some (obj_lookup name (schemas ex')).
Proof.
  destruct entry as [n target]. unfold collect_model.
  destruct (truthy (get (class_metadata G target) "properties")); [|by intros [= <-]].
  unfold transformProperties.
  destruct (transformProperties_with _ _ ex) as [[properties ex1]| |] eqn:Hrun;
    simpl; [|done|done].
  intros [= <-] [schema Hschema]. simpl.
  destruct (transformProperties_with_extends G _ _ _ _ _ (resolveReference_extends G fuel) Hrun)
    as (_ & Hkeep & _).
  rewrite obj_lookup_set. destruct (String.eqb name n); [eauto|].
  rewrite (Hkeep _ _ Hschema). eauto.
Qed.

Lemma collect_model_emits G fuel name target ex ex' :
  declares_properties G target = true →
  collect_model G fuel (name, target) ex = Ok ex' →
  is_Some (obj_lookup name (schemas ex')).
Proof.
  unfold declares_properties, collect_model. intros ->.
  destruct (transformProperties _ _ _ ex) as [[properties ex1]| |]; simpl; [|done|done].
  intros [= <-]. simpl. rewrite obj_lookup_set_eq. eauto.
Qed.

Lemma for_each_collect_emits G fuel name target l : ∀ ex ex',
  (name, target) ∈ l →
  declares_properties G target = true →
  for_each (collect_model G fuel) l ex = Ok ex' →
  is_Some (obj_lookup name (schemas ex')).
Proof.
  induction l as [|entry l IH]; intros ex ex' Hin Hdecl; [by apply elem_of_nil in Hin|].
  cbn [for_each].
  destruct (collect_model G fuel entry ex) as [ex1| |] eqn:Hstep; simpl; [|done|done].
  intros Hrest. apply elem_of_cons in Hin as [<-|Hin].
  - pose proof (collect_model_emits _ _ _ _ _ _ Hdecl Hstep) as Hthere.
    refine (for_each_ok_related
              (λ s s', is_Some (obj_lookup name (schemas s))
                       → is_Some (obj_lookup name (schemas s')))
              (collect_model G fuel) l _ _ _ ex1 ex' Hrest Hthere); [auto|auto|].
    intros x s s' _ Hx. by apply (collect_model_keeps G fuel x).
  - by eapply IH.
Qed.

(** X9.  What [ApiModel] leaves behind.  The class is in the registry
    under its name; its metadata has [type: "object"] whatever the
    annotation said, keeps the properties recorded so far, and always
    passes the test of the seeding loop, also when no property was ever
    declared.  So whenever [collectGlobalSchemas] returns, the schema
    map has a schema under the name of the class. *)
Theorem ApiModel_registers_the_class (metadata : value) (target : Class) (G : Global) :
  registry_get (ApiModel metadata target G) (class_name target) = Some (class_id target)
  ∧ get (class_metadata (ApiModel metadata target G) (class_id target)) "type"
    = VStr "object"
  ∧ get (class_metadata (ApiModel metadata target G) (class_id target)) "properties"
    = model_properties G (class_id target)
  ∧ declares_properties (ApiModel metadata target G) (class_id target) = true
  ∧ (∀ fuel ex ex',
       collectGlobalSchemas (ApiModel metadata target G) fuel ex = Ok ex' →
       is_Some (obj_lookup (class_name target) (schemas ex'))).
Proof.
  assert (Hdecl : declares_properties (ApiModel metadata target G) (class_id target) = true).
  { unfold declares_properties. rewrite ApiModel_class_metadata. unfold get.
    rewrite obj_lookup_set_eq. apply truthy_or_else_object. }
  split; [|split; [|split; [|split; [done|]]]].
  - unfold registry_get, ApiModel, registry_set. simpl. apply obj_lookup_set_eq.
  - rewrite ApiModel_class_metadata. unfold get.
    rewrite obj_lookup_set_ne by done. by rewrite obj_lookup_set_eq.
  - rewrite ApiModel_class_metadata. unfold get. by rewrite obj_lookup_set_eq.
  - intros fuel ex ex'. unfold collectGlobalSchemas.
    change (swagger_schemas (ApiModel metadata target G))
      with (registry_set (class_name target) (class_id target) (swagger_schemas G)).
    unfold registry_set.
    apply (for_each_collect_emits _ fuel (class_name target) (class_id target));
      [apply obj_set_elem|done].
Qed.

Lemma ApiModel_registers_the_class_witness :
  (r ← collectGlobalSchemas
         (ApiModel (VObj [("description", VStr "A user")]) Demo.User
            (Sample.no_controllers ∅ None)) 1 Sample.fresh;
   Ok (schemas r))
  = Ok [("User", [("type", VStr "object"); ("description", VStr "A user");
                  ("properties", VObj [])])]
  ∧ is_Some (obj_lookup (class_name Demo.User)
               [("User", [("type", VStr "object"); ("description", VStr "A user");
                          ("properties", VObj [])])]).
Proof.
  split; [reflexivity|].
  destruct (ApiModel_registers_the_class (VObj [("description", VStr "A user")]) Demo.User
              (Sample.no_controllers ∅ None)) as (_ & _ & _ & _ & Hseeded).
  exact (Hseeded 1 Sample.fresh
           {| paths := [];
              schemas := [("User", [("type", VStr "object"); ("description", VStr "A user");
                                    ("properties", VObj [])])] |} eq_refl).
Defined.

(** ** Transformed properties *)

Lemma own_entries_falsy v : truthy v = false → own_entries v = [].
Proof.
  destruct v as [| |b|n|s|xs|o]; try done; simpl.
  destruct s; [done|]. done.
Qed.

Lemma copied_fields (o : obj) k : get (copied (VObj o)) k = get (VObj o) k.
Proof.
  unfold copied.
  destruct (truthy (get (VObj o) "items")) eqn:Hitems.
  - unfold get at 1. rewrite get_spread. simpl.
    destruct (String.eqb_spec k "items") as [->|_].
    + unfold get in *. by destruct (obj_lookup "items" o).
    + rewrite get_spread. unfold get. by destruct (obj_lookup k o).
  - rewrite (spread_absent _ _ (own_entries_falsy _ Hitems)).
    unfold get at 1. rewrite get_spread. unfold get. by destruct (obj_lookup k o).
Qed.

Lemma for_each_transform_lookup G resolve (l : obj) : ∀ acc ex transformed ex',
  (∀ v ex r ex', resolve v ex = Ok (r, ex') → r = v ∧ extends G ex ex') →
  NoDup (keys l) →
  for_each (transform_property resolve) l (acc, ex) = Ok (transformed, ex') →
  ∀ key,
    obj_lookup key transformed
    = match obj_lookup key l with
      | Some prop => Some (copied prop)
      | None => obj_lookup key acc
      end.
Proof.
  induction l as [|[k0 p0] l IH]; intros acc ex transformed ex' Hresolve Hnd;
    cbn [for_each].
  - intros [= <- <-] key. reflexivity.
  - destruct (transform_property resolve (k0, p0) (acc, ex)) as [[acc1 ex1]| |] eqn:Hstep;
      simpl; [|intros [=]|intros [=]].
    destruct (transform_property_extends G resolve _ _ _ _ _ Hresolve Hstep) as [_ ->].
    destruct (proj1 (NoDup_cons k0 (keys l)) Hnd) as [Hk0 Hnd'].
    intros Hrest key. rewrite (IH _ _ _ _ Hresolve Hnd' Hrest key).
    simpl. rewrite obj_lookup_set.
    destruct (String.eqb_spec key k0) as [->|_]; [|done].
    destruct (obj_lookup k0 l) eqn:E; [|done].
    exfalso. apply Hk0. apply obj_lookup_keys. eauto.
Qed.

(** X15.  [transformProperties] hands the properties back as they were
    declared: the result has an entry for exactly the declared property
    names, and a property that is a schema object keeps every field
    with its value, its [items] and any [$ref] included.  Resolution
    shows in the schema map only, never in the properties. *)
Theorem transformProperties_keeps_the_properties
    G fuel (properties : obj) ex transformed ex' :
  transformProperties G fuel (VObj properties) ex = Ok (transformed, ex') →
  (∀ key, obj_lookup key transformed = copied <$> obj_lookup key properties)
  ∧ (∀ key o k,
       obj_lookup key properties = Some (VObj o) →
       get (default VUndefined (obj_lookup key transformed)) k = get (VObj o) k).
Proof.
  intros Hrun.
  assert (Hlookup : ∀ key, obj_lookup key transformed = copied <$> obj_lookup key properties).
  { intros key. unfold transformProperties, transformProperties_with in Hrun.
    rewrite (for_each_transform_lookup G _ _ _ _ _ _ (resolveReference_extends G fuel)
               (NoDup_bindings properties) Hrun key).
    simpl. rewrite obj_lookup_bindings. by destruct (obj_lookup key properties). }
  split; [done|].
  intros key o k Hkey. rewrite Hlookup, Hkey. simpl. apply copied_fields.
Qed.

Lemma transformProperties_keeps_the_properties_witness :
  ∃ transformed ex',
    transformProperties Sample.blog_global 1
      (VObj [("title", VObj [("type", VStr "string")]);
             ("authors", Sample.array_of (Sample.ref_to "User"))]) Sample.fresh
    = Ok (transformed, ex')
    ∧ (∀ key,
         obj_lookup key transformed
         = copied <$> obj_lookup key
                        [("title", VObj [("type", VStr "string")]);
                         ("authors", Sample.array_of (Sample.ref_to "User"))])
    ∧ (∀ key o k,
         obj_lookup key [("title", VObj [("type", VStr "string")]);
                         ("authors", Sample.array_of (Sample.ref_to "User"))]
         = Some (VObj o) →
         get (default VUndefined (obj_lookup key transformed)) k = get (VObj o) k).
Proof.
  eexists _, _. split; [reflexivity|].
  exact (transformProperties_keeps_the_properties Sample.blog_global 1
           [("title", VObj [("type", VStr "string")]);
            ("authors", Sample.array_of (Sample.ref_to "User"))]
           Sample.fresh _ _ eq_refl).
Defined.

(** ** The paths map *)

Lemma operation_at_set_ne full methodKey operation p path key :
  (path, key) ≠ (full, methodKey) →
  operation_at (set_operation full methodKey operation p) path key = operation_at p path key.
Proof.
  intros Hne. unfold operation_at, set_operation. rewrite obj_lookup_set.
  destruct (String.eqb_spec path full) as [->|_]; [|done]. simpl.
  rewrite obj_lookup_set_ne by congruence.
  by destruct (obj_lookup full p).
Qed.

(** X16.  A path conflict is settled by the order of exploration.  When
    two routed methods have the same full path and the same lower-cased
    HTTP method, exploring them one after the other leaves the operation
    of the second under that path and method: the first is overwritten
    without an error.  Every operation under another path or method is
    what it was before. *)
Theorem later_endpoint_wins
    G controller basePath controllerTags first second rm1 rm2 ex :
  reflect_route G !! (class_id controller, first) = Some rm1 →
  reflect_route G !! (class_id controller, second) = Some rm2 →
  fullPath basePath (route_path rm1) = fullPath basePath (route_path rm2) →
  toLowerCase (route_method rm1) = toLowerCase (route_method rm2) →
  array_or_absent controllerTags = true →
  array_or_absent (get (endpoint_metadata G controller first) "tags") = true →
  array_or_absent (get (endpoint_metadata G controller first) "parameters") = true →
  array_or_absent (get (endpoint_metadata G controller second) "tags") = true →
  array_or_absent (get (endpoint_metadata G controller second) "parameters") = true →
  ∃ ex1 ex2,
    explore_method G controller basePath controllerTags first ex = Ok ex1
    ∧ explore_method G controller basePath controllerTags second ex1 = Ok ex2
    ∧ build_operation controllerTags (endpoint_metadata G controller second)
        (fullPath basePath (route_path rm2))
      = Ok (default VUndefined
              (operation_at (paths ex2) (fullPath basePath (route_path rm1))
                 (toLowerCase (route_method rm1))))
    ∧ ∀ path key,
        (path, key) ≠ (fullPath basePath (route_path rm1), toLowerCase (route_method rm1)) →
        operation_at (paths ex2) path key = operation_at (paths ex) path key.
Proof.
  intros Hr1 Hr2 Hpath Hkey Hc Ht1 Hp1 Ht2 Hp2.
  unfold explore_method. rewrite Hr1, Hr2.
  rewrite !build_operation_ok by done. simpl.
  eexists _, _. split; [reflexivity|]. split; [reflexivity|]. simpl.
  rewrite Hpath, Hkey. split.
  - by rewrite operation_at_set.
  - intros path key Hne. by rewrite !operation_at_set_ne.
Qed.

Lemma later_endpoint_wins_witness :
  ∃ ex1 ex2,
    explore_method Demo.clash_global Demo.ClashController "items/" (VArr []) "first"
      Sample.fresh = Ok ex1
    ∧ explore_method Demo.clash_global Demo.ClashController "items/" (VArr []) "second" ex1
      = Ok ex2
    ∧ build_operation (VArr []) (endpoint_metadata Demo.clash_global Demo.ClashController "second")
        (fullPath "items/" "/list")
      = Ok (default VUndefined
              (operation_at (paths ex2) (fullPath "items/" "list") (toLowerCase "GET")))
    ∧ ∀ path key,
        (path, key) ≠ (fullPath "items/" "list", toLowerCase "GET") →
        operation_at (paths ex2) path key = operation_at (paths Sample.fresh) path key.
Proof.
  exact (later_endpoint_wins Demo.clash_global Demo.ClashController "items/" (VArr [])
           "first" "second"
           {| route_path := "list"; route_method := "GET" |}
           {| route_path := "/list"; route_method := "get" |}
           Sample.fresh eq_refl eq_refl eq_refl eq_refl eq_refl eq_refl eq_refl eq_refl
           eq_refl).
Defined.

Lemma lower_char_idempotent c : lower_char (lower_char c) = lower_char c.
Proof. by destruct c as [[] [] [] [] [] [] [] []]. Qed.

Lemma toLowerCase_idempotent s : toLowerCase (toLowerCase s) = toLowerCase s.
Proof.
  induction s as [|c s IH]; simpl; [done|].
  by rewrite lower_char_idempotent, IH.
Qed.

Lemma elem_of_obj_set {A : Type} k (v : A) k0 v0 (o : list (string * A)) :
  (k, v) ∈ obj_set k0 v0 o → (k, v) = (k0, v0) ∨ (k, v) ∈ o.
Proof.
  induction o as [|[k1 v1] o IH]; simpl.
  - intros ?%list_elem_of_singleton. by left.
  - rewrite !elem_of_cons. destruct (String.eqb k0 k1).
    + rewrite elem_of_cons. tauto.
    + rewrite elem_of_cons. tauto.
Qed.

Lemma build_operation_inv controllerTags md full operation :
  build_operation controllerTags md full = Ok operation →
  ∃ tags declared,
    operation
    = operation_literal tags (get md "operation") (extractPathParameters full ++ declared)
        (get md "requestBody") (or_else (get md "responses") default_responses).
Proof.
  unfold build_operation.
  destruct (iterate (or_else controllerTags (VArr []))); simpl; [|done|done].
  destruct (iterate (or_else (get md "tags") (VArr []))); simpl; [|done|done].
  destruct (iterate (or_else (get md "parameters") (VArr []))); simpl; [|done|done].
  intros [= <-]. eauto.
Qed.

Lemma complete_operation_literal tags operation parameters requestBody responses :
  complete_operation
    (operation_literal tags operation parameters requestBody
       (or_else responses default_responses)).
Proof.
  split.
  - rewrite get_operation_literal_responses. unfold or_else.
    by destruct (truthy responses) eqn:E.
  - rewrite get_operation_literal_parameters. eauto.
Qed.

Lemma well_formed_set_operation full methodKey operation p :
  well_formed_paths p →
  normalized full →
  toLowerCase methodKey = methodKey →
  complete_operation operation →
  well_formed_paths (set_operation full methodKey operation p).
Proof.
  intros Hp Hfull Hkey Hop path item key op Hitem Hin.
  unfold set_operation in Hitem.
  apply elem_of_obj_set in Hitem as [[= -> ->]|Hitem]; [|by eapply Hp].
  apply elem_of_obj_set in Hin as [[= -> ->]|Hin]; [done|].
  destruct (obj_lookup full p) as [item0|] eqn:E; simpl in Hin.
  - eapply Hp; [|exact Hin]. by apply obj_lookup_elem_of.
  - by apply elem_of_nil in Hin.
Qed.

Lemma for_each_invariant {A S : Type} (P : S → Prop) (body : A → S → Res S) l :
  (∀ x s s', x ∈ l → body x s = Ok s' → P s → P s') →
  ∀ s s', for_each body l s = Ok s' → P s → P s'.
Proof.
  intros Hbody.
  apply (for_each_ok_related (fun s s' => P s → P s')); [auto|auto|].
  intros x s s' Hx Hrun. by eapply Hbody.
Qed.

Lemma explore_method_well_formed G controller basePath controllerTags method ex ex' :
  explore_method G controller basePath controllerTags method ex = Ok ex' →
  well_formed_paths (paths ex) → well_formed_paths (paths ex').
Proof.
  unfold explore_method.
  destruct (reflect_route G !! (class_id controller, method)) as [rm|];
    [|by intros [= <-]].
  destruct (build_operation _ _ _) as [operation| |] eqn:Hbuild; simpl; [|done|done].
  intros [= <-] Hwf. simpl.
  destruct (build_operation_inv _ _ _ _ Hbuild) as (tags & declared & ->).
  apply well_formed_set_operation; [done| | |].
  - apply normalizePath_shape.
  - apply toLowerCase_idempotent.
  - apply complete_operation_literal.
Qed.

Lemma collectGlobalSchemas_paths G fuel ex seeded :
  collectGlobalSchemas G fuel ex = Ok seeded → paths seeded = paths ex.
Proof.
  unfold collectGlobalSchemas.
  destruct (swagger_schemas G) as [entries|]; [|by intros [= <-]].
  apply (for_each_ok_related (fun a b : Explorer => paths b = paths a));
    [done|congruence|].
  intros [name target] s s' _. unfold collect_model.
  destruct (truthy _); [|by intros [= <-]].
  destruct (transformProperties G fuel _ s) as [[properties s1]| |] eqn:Hrun;
    simpl; [|done|done].
  intros [= <-]. simpl.
  by destruct (transformProperties_with_extends G _ _ _ _ _
                 (resolveReference_extends G fuel) Hrun) as (Hp & _).
Qed.

(** X17.  What every explored document has.  Whenever [explore] returns,
    every key of its paths map is a normalized path (one leading slash,
    no trailing slash unless it is the root), every method key is in
    lower case, and every operation has a truthy [responses] and an
    array of [parameters]. *)
Theorem explore_paths_well_formed G fuel modules ex out ex' :
  explore G fuel modules ex = Ok (out, ex') →
  well_formed_paths (paths ex').
Proof.
  unfold explore.
  destruct (collectGlobalSchemas G fuel _) as [seeded| |] eqn:Hseed; simpl; [|done|done].
  destruct (for_each (explore_module G) modules seeded) as [ex1| |] eqn:Hrun;
    simpl; [|done|done].
  intros [= <- <-].
  apply collectGlobalSchemas_paths in Hseed. simpl in Hseed.
  revert Hrun. intros Hrun.
  apply (for_each_invariant (fun s => well_formed_paths (paths s)) _ _
           (fun module s s' _ Hmodule =>
              for_each_invariant (fun s => well_formed_paths (paths s)) _ _
                (fun controller s s' _ Hcontroller =>
                   for_each_invariant (fun s => well_formed_paths (paths s)) _ _
                     (fun method s s' _ =>
                        explore_method_well_formed G controller _ _ method s s')
                     s s' Hcontroller)
                s s' Hmodule)
           seeded ex1 Hrun).
  rewrite Hseed. by intros ???? ?%elem_of_nil.
Qed.

Lemma explore_paths_well_formed_witness :
  well_formed_paths
    (set_operation "/users/:id" "get"
       (operation_literal [VStr "Admin"; VStr "Users"] VUndefined
          [derived_parameter "id"] VUndefined default_responses)
       (set_operation "/users" "get"
          (operation_literal [VStr "Admin"] VUndefined [] VUndefined default_responses) [])).
Proof.
  exact (explore_paths_well_formed (Sample.with_store Sample.tagged) 1 [Sample.UserModule]
           Sample.fresh _ _ eq_refl).
Defined.

(** X18.  The schema map does not depend on the modules.  Two runs of
    [explore] over the same declarations return the same schemas
    whatever modules and controllers each was given: schemas come from
    the registry alone, and no request body, response or parameter of an
    endpoint is ever looked at for references. *)
Theorem explore_schemas_ignore_modules G fuel modules modules' ex ex' out1 out2 ex1 ex2 :
  explore G fuel modules ex = Ok (out1, ex1) →
  explore G fuel modules' ex' = Ok (out2, ex2) →
  schemas ex1 = schemas ex2
  ∧ get (get out1 "components") "schemas" = get (get out2 "components") "schemas".
Proof.
  intros H1 H2.
  destruct (explore_schemas_are_seeded _ _ _ _ _ _ H1) as (seeded1 & Hs1 & He1).
  destruct (explore_schemas_are_seeded _ _ _ _ _ _ H2) as (seeded2 & Hs2 & He2).
  assert (Hschemas : schemas ex1 = schemas ex2) by congruence.
  split; [done|].
  unfold explore in H1, H2.
  destruct (collectGlobalSchemas G fuel _); simpl in *; [|done|done].
  destruct (for_each _ modules _); simpl in *; [|done|done].
  destruct (for_each _ modules' _); simpl in *; [|done|done].
  injection H1 as <- <-. injection H2 as <- <-.
  unfold explored. simpl. by rewrite Hschemas.
Qed.

Lemma explore_schemas_ignore_modules_witness :
  schemas (with_paths Sample.fresh
             (set_operation "/users/:id" "get"
                (operation_literal [VStr "Admin"; VStr "Users"] VUndefined
                   [derived_parameter "id"] VUndefined default_responses)
                (set_operation "/users" "get"
                   (operation_literal [VStr "Admin"] VUndefined [] VUndefined
                      default_responses) [])))
  = schemas Sample.fresh
  ∧ get (get (explored
                (with_paths Sample.fresh
                   (set_operation "/users/:id" "get"
                      (operation_literal [VStr "Admin"; VStr "Users"] VUndefined
                         [derived_parameter "id"] VUndefined default_responses)
                      (set_operation "/users" "get"
                         (operation_literal [VStr "Admin"] VUndefined [] VUndefined
                            default_responses) []))))
             "components") "schemas"
    = get (get (explored Sample.fresh) "components") "schemas".
Proof.
  exact (explore_schemas_ignore_modules (Sample.with_store Sample.tagged) 1
           [Sample.UserModule] [] Sample.fresh Sample.fresh _ _ _ _ eq_refl eq_refl).
Defined.

(** X19.  What [ApiOperation] can and cannot set.  A field of the
    operation metadata other than [tags], [parameters], [requestBody]
    and [responses] goes into the emitted operation as it is (summary,
    description, operationId, deprecated, ...).  Those three are
    overwritten after the spread: a [requestBody] given through
    [ApiOperation] is replaced by the one of [ApiBody], or by
    [undefined] when there is none, and its [parameters] and
    [responses] are dropped likewise. *)
Theorem operation_metadata_passes_through
    controllerTags md full operation (o : obj) (k : string) :
  build_operation controllerTags md full = Ok operation →
  get md "operation" = VObj o →
  (k ≠ "parameters" → k ≠ "requestBody" → k ≠ "responses" → k ≠ "tags" →
   get operation k = get (VObj o) k)
  ∧ get operation "requestBody" = get md "requestBody"
  ∧ get operation "responses" = or_else (get md "responses") default_responses
  ∧ ∃ declared,
      iterate (or_else (get md "parameters") (VArr [])) = Ok declared
      ∧ get operation "parameters" = VArr (extractPathParameters full ++ declared).
Proof.
  unfold build_operation. intros Hbuild Ho.
  destruct (iterate (or_else controllerTags (VArr []))); simpl in Hbuild; [|done|done].
  destruct (iterate (or_else (get md "tags") (VArr []))); simpl in Hbuild; [|done|done].
  destruct (iterate (or_else (get md "parameters") (VArr []))) as [declared| |];
    simpl in Hbuild; [|done|done].
  injection Hbuild as <-. rewrite Ho. split; [|split; [|split]].
  - intros H1 H2 H3 H4. unfold operation_literal, get.
    rewrite !obj_lookup_set_ne by done. rewrite get_spread. simpl.
    destruct (obj_lookup k o); [done|]. by destruct (String.eqb_spec k "tags").
  - unfold operation_literal, get. rewrite obj_lookup_set_ne by done.
    by rewrite obj_lookup_set_eq.
  - apply get_operation_literal_responses.
  - exists declared. split; [done|]. apply get_operation_literal_parameters.
Qed.

Lemma operation_metadata_passes_through_witness :
  ("summary" ≠ "parameters" → "summary" ≠ "requestBody" → "summary" ≠ "responses" →
   "summary" ≠ "tags" →
   get (operation_literal [VStr "Admin"; VStr "Users"]
          (VObj [("summary", VStr "Get user by id"); ("tags", VArr [VStr "Accounts"])])
          (extractPathParameters "/users/:id" ++ []) VUndefined default_responses) "summary"
   = get (VObj [("summary", VStr "Get user by id"); ("tags", VArr [VStr "Accounts"])])
       "summary")
  ∧ get (operation_literal [VStr "Admin"; VStr "Users"]
           (VObj [("summary", VStr "Get user by id"); ("tags", VArr [VStr "Accounts"])])
           (extractPathParameters "/users/:id" ++ []) VUndefined default_responses)
        "requestBody"
    = get (endpoint_metadata (Sample.with_store Sample.overridden) Sample.UserController
             "getUser") "requestBody"
  ∧ get (operation_literal [VStr "Admin"; VStr "Users"]
           (VObj [("summary", VStr "Get user by id"); ("tags", VArr [VStr "Accounts"])])
           (extractPathParameters "/users/:id" ++ []) VUndefined default_responses)
        "responses"
    = or_else (get (endpoint_metadata (Sample.with_store Sample.overridden)
                      Sample.UserController "getUser") "responses") default_responses
  ∧ ∃ declared,
      iterate (or_else (get (endpoint_metadata (Sample.with_store Sample.overridden)
                               Sample.UserController "getUser") "parameters") (VArr []))
      = Ok declared
      ∧ get (operation_literal [VStr "Admin"; VStr "Users"]
               (VObj [("summary", VStr "Get user by id"); ("tags", VArr [VStr "Accounts"])])
               (extractPathParameters "/users/:id" ++ []) VUndefined default_responses)
            "parameters"
        = VArr (extractPathParameters "/users/:id" ++ declared).
Proof.
  exact (operation_metadata_passes_through (VArr [VStr "Admin"])
           (endpoint_metadata (Sample.with_store Sample.overridden) Sample.UserController
              "getUser")
           "/users/:id" _
           [("summary", VStr "Get user by id"); ("tags", VArr [VStr "Accounts"])]
           "summary" eq_refl eq_refl).
Defined.

(** ** The complete document of [setupSwagger] *)

(** X20.  The document that [setupSwagger] hands to [setDocument].  Its
    [paths] are those of the service and nothing else: paths written in
    the base document of the configuration are replaced, not merged.
    Its components are the base components overlaid, component by
    component, with those of the service.  Every other field of the
    base document is kept.  For a configuration whose document is
    [undefined] or [null], building the document throws a [TypeError]. *)
Theorem completeDocument_fields
    (getPaths getComponents : SwaggerService → value)
    (config : SwaggerConfig) (svc : SwaggerService)
    (base baseComponents components : obj) (k : string) :
  config_document config = VObj base →
  get (VObj base) "components" = VObj baseComponents
  ∨ get (VObj base) "components" = VUndefined ∧ baseComponents = [] →
  getComponents svc = VObj components →
  ∃ complete,
    completeDocument getPaths getComponents config svc = Ok complete
    ∧ get complete "paths" = getPaths svc
    ∧ get (get complete "components") k
      = match obj_lookup k components with
        | Some component => component
        | None => default VUndefined (obj_lookup k baseComponents)
        end
    ∧ (k ≠ "paths" → k ≠ "components" → get complete k = get (VObj base) k)
    ∧ completeDocument getPaths getComponents
        {| config_path := config_path config; config_document := VUndefined |} svc
      = TypeError
    ∧ completeDocument getPaths getComponents
        {| config_path := config_path config; config_document := VNull |} svc
      = TypeError.
Proof.
  intros Hbase Hbc Hcomponents. unfold completeDocument. rewrite Hbase, Hcomponents.
  eexists. split; [reflexivity|]. split; [|split; [|split; [|done]]].
  - unfold get. rewrite obj_lookup_set_ne by done. by rewrite obj_lookup_set_eq.
  - unfold get at 2. rewrite obj_lookup_set_eq.
    change (default VUndefined (Some ?x)) with x.
    unfold get at 1. rewrite get_spread.
    destruct (obj_lookup k components); [done|].
    destruct Hbc as [->|[-> ->]]; [|done].
    rewrite get_spread. by destruct (obj_lookup k baseComponents).
  - intros H1 H2. unfold get. rewrite !obj_lookup_set_ne by done.
    rewrite get_spread. by destruct (obj_lookup k base).
Qed.

Lemma completeDocument_fields_witness :
  ∃ complete,
    completeDocument (fun _ => VObj [("/users", VObj [])])
      (fun _ => VObj [("schemas", VObj [])])
      {| config_path := None;
         config_document :=
           VObj [("openapi", VStr "3.0.0");
                 ("paths", VObj [("/manual", VObj [])]);
                 ("components", VObj [("schemas", VObj [("Manual", VObj [])])])] |}
      {| service_config := None; service_document := None;
         service_explored := Sample.fresh |}
    = Ok complete
    ∧ get complete "paths" = VObj [("/users", VObj [])]
    ∧ get (get complete "components") "schemas"
      = match obj_lookup "schemas" [("schemas", VObj [])] with
        | Some component => component
        | None =>
            default VUndefined
              (obj_lookup "schemas" [("schemas", VObj [("Manual", VObj [])])])
        end
    ∧ ("schemas" ≠ "paths" → "schemas" ≠ "components" →
       get complete "schemas"
       = get (VObj [("openapi", VStr "3.0.0");
                    ("paths", VObj [("/manual", VObj [])]);
                    ("components", VObj [("schemas", VObj [("Manual", VObj [])])])])
           "schemas")
    ∧ completeDocument (fun _ => VObj [("/users", VObj [])])
        (fun _ => VObj [("schemas", VObj [])])
        {| config_path := None; config_document := VUndefined |}
        {| service_config := None; service_document := None;
           service_explored := Sample.fresh |}
      = TypeError
    ∧ completeDocument (fun _ => VObj [("/users", VObj [])])
        (fun _ => VObj [("schemas", VObj [])])
        {| config_path := None; config_document := VNull |}
        {| service_config := None; service_document := None;
           service_explored := Sample.fresh |}
      = TypeError.
Proof.
  exact (completeDocument_fields (fun _ => VObj [("/users", VObj [])])
           (fun _ => VObj [("schemas", VObj [])])
           {| config_path := None;
              config_document :=
                VObj [("openapi", VStr "3.0.0");
                      ("paths", VObj [("/manual", VObj [])]);
                      ("components", VObj [("schemas", VObj [("Manual", VObj [])])])] |}
           {| service_config := None; service_document := None;
              service_explored := Sample.fresh |}
           _ [("schemas", VObj [("Manual", VObj [])])] [("schemas", VObj [])] "schemas"
           eq_refl (or_introl eq_refl) eq_refl).
Defined.

(** ** Exploring never throws on well-typed endpoints *)

Lemma for_each_total {A S : Type} (body : A → S → Res S) l s :
  (∀ x s, x ∈ l → ∃ s', body x s = Ok s') → ∃ s', for_each body l s = Ok s'.
Proof.
  intros Hbody.
  destruct (for_each_related (fun _ _ : S => True) body l s) as (s' & Hrun & _); eauto.
  intros x t Hx. destruct (Hbody x t Hx) as [t' Ht]. eauto.
Qed.

Lemma exploreController_total G controller ex :
  well_typed_endpoints G → ∃ ex', exploreController G controller ex = Ok ex'.
Proof.
  intros Htyped. unfold exploreController.
  destruct (Htyped (class_id controller)) as [Hclass Hmethods].
  apply for_each_total. intros method s _.
  destruct (reflect_route G !! (class_id controller, method)) as [rm|] eqn:Hroute.
  - destruct (Hmethods method) as [Htags Hparameters].
    destruct (explore_method_stores G controller
                (default "" (reflect_controller G !! class_id controller))
                (getControllerTags G controller) method rm s Hroute)
      as (s' & Hrun & _); [|done|done|eauto].
    unfold getControllerTags. by rewrite (array_or_absent_or_else _ Hclass).
  - unfold explore_method. rewrite Hroute. eauto.
Qed.

(** X21.  The controllers cannot make [explore] fail.  When the tags and
    parameters recorded for the classes and methods are arrays or
    absent, as [ApiTags], [ApiParam] and [ApiQuery] leave them, [explore]
    returns a document for every list of modules exactly when seeding
    the schema map from the registry returns: methods without a route,
    controllers without methods and modules without controllers are
    passed over without an error. *)
Theorem explore_returns_when_seeding_does G fuel modules ex :
  well_typed_endpoints G →
  (∃ out ex', explore G fuel modules ex = Ok (out, ex'))
  ↔ (∃ seeded, collectGlobalSchemas G fuel {| paths := []; schemas := [] |} = Ok seeded).
Proof.
  intros Htyped. unfold explore.
  change (with_schemas (with_paths ex []) []) with {| paths := []; schemas := [] |}.
  split.
  - intros (out & ex' & Hrun).
    destruct (collectGlobalSchemas G fuel _) as [seeded| |]; [eauto|done|done].
  - intros [seeded ->]. simpl.
    destruct (for_each_total (explore_module G) modules seeded) as [ex1 ->]; [|simpl; eauto].
    intros module s _. unfold explore_module.
    apply for_each_total. intros controller t _.
    by apply exploreController_total.
Qed.

(** ** The invariant of the store *)

Lemma well_kept_insert st t member (o : obj) :
  well_kept st →
  array_or_absent (get (VObj o) "tags") = true →
  array_or_absent (get (VObj o) "parameters") = true →
  well_kept (<[(t, member) := VObj o]> st).
Proof.
  intros Hst Htags Hparameters t' member'.
  destruct (decide ((t', member') = (t, member))) as [[= -> ->]|Hne].
  - unfold record_at. rewrite getMetadata_insert, lookup_insert_eq. done.
  - unfold record_at. rewrite getMetadata_insert_ne, lookup_insert_ne by done.
    apply Hst.
Qed.

Lemma well_kept_existing st t member :
  well_kept st →
  ∃ o, existing st t member = VObj o
       ∧ array_or_absent (get (VObj o) "tags") = true
       ∧ array_or_absent (get (VObj o) "parameters") = true.
Proof.
  intros Hst. destruct (Hst t member) as (Hrec & Htags & Hparameters).
  destruct (existing_record _ _ _ Hrec) as (o & He & Hg).
  exists o. by rewrite !Hg.
Qed.

Lemma well_kept_set_field st t member k v :
  well_kept st →
  (k = "tags" → array_or_absent v = true) →
  (k = "parameters" → array_or_absent v = true) →
  well_kept (<[(t, member) := VObj (obj_set k v (spread [] (existing st t member)))]> st).
Proof.
  intros Hst Htags Hparameters.
  destruct (well_kept_existing st t member Hst) as (o & -> & Ht & Hp).
  apply well_kept_insert; [done| |]; rewrite get_set_spread.
  - destruct (String.eqb_spec "tags" k) as [<-|_]; auto.
  - destruct (String.eqb_spec "parameters" k) as [<-|_]; auto.
Qed.

Lemma well_kept_endpoints G st : well_kept st → well_typed_endpoints (with_swagger G st).
Proof.
  intros Hst c. unfold class_metadata, with_swagger. cbn [reflect_swagger].
  split; [|intros m; split].
  - by destruct (well_kept_existing st (Constructor c) None Hst) as (o & -> & ? & ?).
  - by destruct (well_kept_existing st (Prototype c) (Some m) Hst) as (o & -> & ? & ?).
  - by destruct (well_kept_existing st (Prototype c) (Some m) Hst) as (o & -> & ? & ?).
Qed.

Lemma well_kept_empty : well_kept ∅.
Proof. intros t member. unfold record_at, getMetadata. by rewrite lookup_empty. Qed.

Lemma well_kept_ApiTags tags site st : well_kept st → well_kept (ApiTags tags site st).
Proof. intros Hst. destruct site; by apply well_kept_set_field. Qed.

Lemma well_kept_add_parameter location param c m st :
  well_kept st →
  ∃ st', add_parameter location param c m st = Ok st' ∧ well_kept st'.
Proof.
  intros Hst. unfold add_parameter.
  destruct (well_kept_existing st (Prototype c) (Some m) Hst) as (o & He & _ & Hp).
  rewrite He in *. rewrite (array_or_absent_or_else _ Hp). simpl.
  eexists. split; [reflexivity|]. rewrite <- He. by apply well_kept_set_field.
Qed.

(** X22.  The annotations keep the store in shape.  Starting from a store
    that has, under every key, a record or nothing, with arrays or
    nothing for tags and parameters (the empty store is one), every
    annotation leaves such a store again; [ApiParam] and [ApiQuery]
    then never throw; and exploring such a store meets no ill-typed
    tags or parameters. *)
Theorem annotations_keep_the_store
    (st : SwaggerStore) (site : Site) (c : ClassId) (m : string)
    (tags scopes : list string) (name location : string)
    (operation body param options : value) (G : Global) :
  well_kept st →
  well_kept (ApiTags tags site st)
  ∧ well_kept (ApiSecurity name scopes site st)
  ∧ well_kept (ApiOperation operation c m st)
  ∧ well_kept (ApiBody body c m st)
  ∧ well_kept (ApiBasicAuth options site st)
  ∧ well_kept (ApiBearerAuth options site st)
  ∧ well_kept (ApiOAuth2 options site st)
  ∧ (∃ st', add_parameter location param c m st = Ok st' ∧ well_kept st')
  ∧ well_typed_endpoints (with_swagger G st).
Proof.
  intros Hst.
  split; [by apply well_kept_ApiTags|].
  split; [destruct site; by apply well_kept_set_field|].
  split; [by apply well_kept_set_field|].
  split; [by apply well_kept_set_field|].
  split; [by apply well_kept_insert|].
  split; [by apply well_kept_insert|].
  split; [by apply well_kept_insert|].
  split; [by apply well_kept_add_parameter|].
  by apply well_kept_endpoints.
Qed.

Lemma annotations_keep_the_store_witness :
  well_kept (ApiTags ["Admin"] (OnClass 1) ∅)
  ∧ well_kept (ApiSecurity "jwt" [] (OnClass 1) ∅)
  ∧ well_kept (ApiOperation (VObj []) 1 "getUser" ∅)
  ∧ well_kept (ApiBody (VObj []) 1 "getUser" ∅)
  ∧ well_kept (ApiBasicAuth (VObj []) (OnClass 1) ∅)
  ∧ well_kept (ApiBearerAuth (VObj []) (OnClass 1) ∅)
  ∧ well_kept (ApiOAuth2 (VObj []) (OnClass 1) ∅)
  ∧ (∃ st', add_parameter "path" Sample.id_param 1 "getUser" ∅ = Ok st' ∧ well_kept st')
  ∧ well_typed_endpoints (with_swagger (Sample.with_store ∅) ∅).
Proof.
  exact (annotations_keep_the_store ∅ (OnClass 1) 1 "getUser" ["Admin"] [] "jwt" "path"
           (VObj []) (VObj []) Sample.id_param (VObj []) (Sample.with_store ∅)
           well_kept_empty).
Defined.

Lemma sample_endpoints_well_typed : well_typed_endpoints (Sample.with_store Sample.declared).
Proof.
  apply (well_kept_endpoints (Sample.with_store ∅)).
  unfold Sample.declared.
  destruct (well_kept_add_parameter "path" Sample.id_param 1 "getUser" Sample.tagged)
    as (st' & Hrun & Hkept).
  - unfold Sample.tagged. apply well_kept_ApiTags, well_kept_ApiTags, well_kept_empty.
  - unfold ApiParam. by rewrite Hrun.
Qed.

Lemma explore_returns_when_seeding_does_witness :
  (∃ out ex',
     explore (Sample.with_store Sample.declared) 1 [Sample.UserModule] Sample.fresh
     = Ok (out, ex'))
  ↔ (∃ seeded,
       collectGlobalSchemas (Sample.with_store Sample.declared) 1
         {| paths := []; schemas := [] |} = Ok seeded).
Proof.
  exact (explore_returns_when_seeding_does (Sample.with_store Sample.declared) 1
           [Sample.UserModule] Sample.fresh sample_endpoints_well_typed).
Defined.
